(** * Unused Lambda finder: query orchestration and reconciliation

    A shallow embedding of [findUnusedLambdas.py]: the three SQL templates
    and their rendering, the polling executor [run_query], the extraction of
    the used identifiers from the result rows and the reconciliation that
    [main] prints.  Python [str] values are modelled by [string], one
    [ascii] per code point below 256 (function ARNs are ASCII). *)

From Stdlib Require Import ZArith NArith String Ascii List DecimalString.
From stdpp Require Import base option list sets gmap strings sorting.

Local Open Scope Z_scope.

(** ** Python string primitives *)

Module Py.

(** The double quote, the single quote and the backslash, as characters. *)
Definition dq_char : ascii := ascii_of_nat 34.
Definition dq : string := String dq_char EmptyString.
Definition sq_char : ascii := ascii_of_nat 39.
Definition backslash : ascii := ascii_of_nat 92.

Fixpoint str_contains (c : ascii) (s : string) : bool :=
  match s with
  | EmptyString => false
  | String d s' => if Ascii.eqb c d then true else str_contains c s'
  end.

(** [s.lstrip(chars)]: drops the longest prefix made of characters of
    [chars]. *)
Fixpoint lstrip (chars s : string) : string :=
  match s with
  | EmptyString => EmptyString
  | String c s' => if str_contains c chars then lstrip chars s' else s
  end.

(** [str.lower] on code points below 256: the ASCII capitals and the
    Latin-1 capitals (all but the multiplication sign 215) move up by 32. *)
Definition lower_char (c : ascii) : ascii :=
  let n := N_of_ascii c in
  if ((65 <=? n) && (n <=? 90) || (192 <=? n) && (n <=? 222) && negb (n =? 215))%N
  then ascii_of_N (n + 32) else c.

Fixpoint lower (s : string) : string :=
  match s with
  | EmptyString => EmptyString
  | String c s' => String (lower_char c) (lower s')
  end.

(** [repr] of a [str]: single quotes unless the text has a single quote and
    no double quote; the quote in use and the backslash are escaped, tab,
    line feed and carriage return have their letter escapes, and the code
    points that are not printable are written [\xNN]. *)
Definition hex_digit (n : N) : ascii :=
  match String.get (N.to_nat n) "0123456789abcdef" with
  | Some c => c
  | None => "0"%char
  end.

Definition printable (n : N) : bool :=
  ((32 <=? n) && (n <? 127) || (161 <=? n) && negb (n =? 173))%N.

Definition repr_char (quote c : ascii) : string :=
  let n := N_of_ascii c in
  if Ascii.eqb c quote || Ascii.eqb c backslash then String backslash (String c EmptyString)
  else if (n =? 9)%N then String backslash "t"
  else if (n =? 10)%N then String backslash "n"
  else if (n =? 13)%N then String backslash "r"
  else if printable n then String c EmptyString
  else String backslash (String "x" (String (hex_digit (n / 16)) (String (hex_digit (n mod 16)) EmptyString))).

Fixpoint repr_body (quote : ascii) (s : string) : string :=
  match s with
  | EmptyString => EmptyString
  | String c s' => repr_char quote c +:+ repr_body quote s'
  end.

Definition repr_str (s : string) : string :=
  let quote := if str_contains sq_char s && negb (str_contains dq_char s)
               then dq_char else sq_char in
  String quote (repr_body quote s +:+ String quote EmptyString).

(** [str(l)] for a list of [str]: the [repr] of the items between square
    brackets, separated by a comma and a space. *)
Fixpoint join (sep : string) (l : list string) : string :=
  match l with
  | [] => EmptyString
  | [x] => x
  | x :: l' => x +:+ sep +:+ join sep l'
  end.

Definition str_list (l : list string) : string :=
  "[" +:+ join ", " (map repr_str l) +:+ "]".

(** The slice [s[1:-1]]. *)
Definition slice_1_m1 (s : string) : string :=
  String.substring 1 (String.length s - 2) s.

(** [str(n)] for an [int]. *)
Definition str_int (n : Z) : string := NilZero.string_of_int (Z.to_int n).

(** [template.format] with positional and keyword arguments, for the
    replacement fields the
    program uses: [{N}] takes the positional argument number [N] and
    [{name}] the keyword argument [name]; doubled braces stand for a brace.
    Anything else (a missing argument, a lone brace, a conversion or a
    format specification) has no rendering here. *)
Fixpoint digits_value (acc : nat) (s : string) : option nat :=
  match s with
  | EmptyString => Some acc
  | String c s' =>
      let n := N_of_ascii c in
      if ((48 <=? n) && (n <=? 57))%N
      then digits_value (10 * acc + (N.to_nat n - 48))%nat s'
      else None
  end.

Definition field_value (args : list string) (kwargs : list (string * string))
    (name : string) : option string :=
  match name with
  | EmptyString => None
  | _ =>
      match digits_value 0 name with
      | Some i => nth_error args i
      | None => snd <$> find (fun kv => String.eqb (fst kv) name) kwargs
      end
  end.

Fixpoint format_from (args : list string) (kwargs : list (string * string))
    (field : option string) (t : string) : option string :=
  match t with
  | EmptyString =>
      match field with
      | None => Some EmptyString
      | Some _ => None
      end
  | String c t' =>
      match field with
      | Some name =>
          if Ascii.eqb c "}"
          then v ← field_value args kwargs name;
               r ← format_from args kwargs None t';
               Some (v +:+ r)
          else format_from args kwargs (Some (name +:+ String c EmptyString)) t'
      | None =>
          if Ascii.eqb c "{" then
            match t' with
            | String "{" t'' => String "{" <$> format_from args kwargs None t''
            | _ => format_from args kwargs (Some EmptyString) t'
            end
          else if Ascii.eqb c "}" then
            match t' with
            | String "}" t'' => String "}" <$> format_from args kwargs None t''
            | _ => None
            end
          else String c <$> format_from args kwargs None t'
      end
  end.

Definition format (t : string) (args : list string)
    (kwargs : list (string * string)) : option string :=
  format_from args kwargs None t.

(** Whether the first character of [s] is one of [chars]. *)
Definition starts_with_any (chars s : string) : bool :=
  match s with
  | EmptyString => false
  | String c _ => str_contains c chars
  end.

End Py.

(** ** The SQL templates of [build_query_strings] *)

Import Py.

Definition create_table_query_template : string :=
  "CREATE EXTERNAL TABLE {0} (
            eventversion STRING,
            userIdentity STRUCT<
            type:STRING,
            principalid:STRING,
            arn:STRING,
            accountid:STRING,
            invokedby:STRING,
            accesskeyid:STRING,
            userName:STRING,
            sessioncontext:STRUCT<
                attributes:STRUCT<
                mfaauthenticated:STRING,
                creationdate:STRING>,
                sessionIssuer:STRUCT<
                type:STRING,
                principalId:STRING,
                arn:STRING,
                accountId:STRING,
                userName:STRING>>>,
            eventTime STRING,
            eventSource STRING,
            eventName STRING,
            awsRegion STRING,
            sourceIpAddress STRING,
            userAgent STRING,
            errorCode STRING,
            errorMessage STRING,
            requestParameters STRING,
            responseElements STRING,
            additionalEventData STRING,
            requestId STRING,
            eventId STRING,
            resources ARRAY<STRUCT<
            ARN:STRING,accountId:
            STRING,type:STRING>>,
            eventType STRING,
            apiVersion STRING,
            readOnly STRING,
            recipientAccountId STRING,
            serviceEventDetails STRING,
            sharedEventID STRING,
            vpcEndpointId STRING
            )
            PARTITIONED BY(year string)
            ROW FORMAT SERDE 'com.amazon.emr.hive.serde.CloudTrailSerde'
            STORED AS INPUTFORMAT 'com.amazon.emr.cloudtrail.CloudTrailInputFormat'
            OUTPUTFORMAT 'org.apache.hadoop.hive.ql.io.HiveIgnoreKeyTextOutputFormat'
            LOCATION '{1}';".

(** Query to add a partition for the year to the CloudTrail table. *)
Definition create_partiton_query_template : string :=
  "
    ALTER TABLE {0} add partition (year=" +:+
  dq +:+
  "{3}" +:+
  dq +:+
  ")
    location '{1}/CloudTrail/{2}/{3}/'".

(** Query for the Invoke data events of the past month. *)
Definition last_run_query_template : string :=
  "
    select json_extract_scalar(requestparameters, '$.functionName') as function_name, Max (eventtime) as " +:+
  dq +:+
  "Last Run" +:+
  dq +:+
  "
    from {0}
    where eventname='Invoke'
    and year='{1}'
    and from_iso8601_timestamp(eventtime) > current_timestamp - interval '1' month
    and json_extract_scalar(requestparameters, '$.functionName') in ({function_arns})
    group by json_extract_scalar(requestparameters, '$.functionName')".

(** ** Values exchanged with the two services *)

Record FunctionConfiguration := { FunctionArn : string }.
Record ListFunctionsResponse := { Functions : list FunctionConfiguration }.

(** A cell of a result row; [VarCharValue] is absent for a null. *)
Record Datum := { VarCharValue : option string }.
Record Row := { Data : list Datum }.
Record ResultSetT := { Rows : list Row }.
Record GetQueryResultsOutput := { ResultSet : ResultSetT }.

(** [args.year] is the [int] default or the [str] given on the command
    line. *)
Inductive Year := YearInt (y : Z) | YearStr (s : string).

Definition str_year (y : Year) : string :=
  match y with
  | YearInt n => str_int n
  | YearStr s => s
  end.

Record Args := {
  region : string;
  profile : string;
  athena_s3_bucket_name : string;
  table_name : string;
  cloudtrail_s3_bucket_name : string;
  year : Year
}.

(** ** Exceptions, outcomes and the trace of what a run does *)

Inductive exn :=
| SystemExit (code : option Z)
| TypeError
| KeyError
| IndexError
| AttributeError
| ValueError
| ClientError (message : string).

Inductive response (A : Type) :=
| Ok (a : A)
| Error (e : exn).
Arguments Ok {A} a.
Arguments Error {A} e.

Inductive outcome (A : Type) :=
| Return (a : A)
| Raise (e : exn)
| OutOfFuel.
Arguments Return {A} a.
Arguments Raise {A} e.
Arguments OutOfFuel {A}.

(** The status with which the interpreter ends, when it ends: [sys.exit()]
    without an argument is status 0, an exception that nobody catches is
    status 1. *)
Definition exit_status {A} (o : outcome A) : option Z :=
  match o with
  | Return _ => Some 0
  | Raise (SystemExit None) => Some 0
  | Raise (SystemExit (Some n)) => Some n
  | Raise _ => Some 1
  | OutOfFuel => None
  end.

(** What each [print] of the modelled functions writes, one constructor per
    print site; the rendering (emoji, padding) is left out. *)
Inductive message :=
| FoundFunctions (count : Z) (region : string)
| WillExit
| QueryExecutionIdLine (QueryExecutionId : string)
| QueryFailed
| Running
| Rule (columns : nat)
| StartingQueries
| CompletedQueries
| RetrievedResults
| UsedSet (set_of_functions_used : gset string)
| UnusedSummary (total unusedcount : Z)
| StaleFunction (stale_function_arn : string)
| Done.

Inductive event :=
| ListFunctions
| StartQueryExecution (QueryString Database OutputLocation : string)
| GetQueryExecution (QueryExecutionId : string)
| GetQueryResults (QueryExecutionId : string)
| Sleep (seconds : Z)
| Print (m : message).

(** The world outside the program: the Lambda and Athena clients created for
    [args.region], the terminal, and the order in which the interpreter
    iterates over a set (any order that lists each element once). *)
Class Services (W : Type) := {
  list_functions : W → response ListFunctionsResponse * W;
  start_query_execution :
    string → string → string → W → response string * W;
  get_query_execution : string → W → response string * W;
  get_query_results : string → W → response GetQueryResultsOutput * W;
  get_terminal_size : W → nat * nat;
  set_iteration : gset string → list string;
  set_iteration_perm : ∀ X, set_iteration X ≡ₚ elements X
}.

(** The program state: the world and the two counters kept as attributes
    of the functions [retrieve_function_arns] and
    [get_set_of_function_arns_from_result_set]. *)
Record state (W : Type) := State {
  world : W;
  retrieve_count : option Z;
  used_count : option Z
}.
Arguments State {W} _ _ _.
Arguments world {W} _.
Arguments retrieve_count {W} _.
Arguments used_count {W} _.

Definition initial {W} (w : W) : state W := State w None None.

Definition M (W A : Type) : Type := state W → outcome A * state W * list event.

Section Monad.
Context {W : Type}.

Definition ret {A} (a : A) : M W A := λ s, (Return a, s, []).

Definition bind {A B} (m : M W A) (k : A → M W B) : M W B := λ s,
  match m s with
  | (Return a, s1, t1) => let '(o, s2, t2) := k a s1 in (o, s2, t1 ++ t2)
  | (Raise e, s1, t1) => (Raise e, s1, t1)
  | (OutOfFuel, s1, t1) => (OutOfFuel, s1, t1)
  end.

Definition raise {A} (e : exn) : M W A := λ s, (Raise e, s, []).
Definition out_of_fuel {A} : M W A := λ s, (OutOfFuel, s, []).
Definition emit (ev : event) : M W unit := λ s, (Return tt, s, [ev]).
Definition print_ (m : message) : M W unit := emit (Print m).
Definition sleep (seconds : Z) : M W unit := emit (Sleep seconds).

(** A request to a service: logged when made, whatever the answer. *)
Definition call {A} (ev : event) (f : W → response A * W) : M W A := λ s,
  let '(r, w) := f (world s) in
  (match r with Ok a => Return a | Error e => Raise e end,
   State w (retrieve_count s) (used_count s), [ev]).

Definition read {A} (f : W → A) : M W A := λ s, (Return (f (world s)), s, []).

Definition set_retrieve_count (n : Z) : M W unit := λ s,
  (Return tt, State (world s) (Some n) (used_count s), []).
Definition set_used_count (n : Z) : M W unit := λ s,
  (Return tt, State (world s) (retrieve_count s) (Some n), []).
Definition get_retrieve_count : M W Z := λ s,
  (match retrieve_count s with Some n => Return n | None => Raise AttributeError end,
   s, []).
Definition get_used_count : M W Z := λ s,
  (match used_count s with Some n => Return n | None => Raise AttributeError end,
   s, []).

Definition of_option {A} (e : exn) (o : option A) : M W A :=
  match o with
  | Some a => ret a
  | None => raise e
  end.

End Monad.

Global Instance M_ret {W} : MRet (M W) := λ A a, ret a.
Global Instance M_bind {W} : MBind (M W) := λ A B k m, bind m k.

Section Program.
Context {W : Type} {services : Services W}.

(** A [for] loop over a list whose body updates an accumulator. *)
Fixpoint for_each {A B} (l : list A) (acc : B) (body : B → A → M W B) : M W B :=
  match l with
  | [] => ret acc
  | x :: l' => acc' ← body acc x; for_each l' acc' body
  end.

(** Retrieve a list of the function ARNs for the Region. *)
Definition retrieve_function_arns (region : string) : M W (list string) :=
  let function_arns := [] in
  set_retrieve_count 0;;
  functions ← call ListFunctions list_functions;
  function_arns ← for_each (Functions functions) function_arns
    (λ function_arns fn,
       count ← get_retrieve_count;
       set_retrieve_count (count + 1);;
       ret (function_arns ++ [FunctionArn fn]));
  count ← get_retrieve_count;
  print_ (FoundFunctions count region);;
  (if count =? 0
   then print_ WillExit;; raise (SystemExit None)
   else ret tt);;
  ret function_arns.

(** The [while] loop of [run_query]; [true] when the loop ends because the
    status is SUCCEEDED, [false] when the function returns from inside it.
    Each iteration takes one unit of fuel. *)
Fixpoint run_query_poll (fuel : nat) (execution_status : option string)
    (QueryExecutionId : string) : M W bool :=
  if decide (execution_status = Some "SUCCEEDED") then ret true
  else
    match fuel with
    | O => out_of_fuel
    | S fuel' =>
        let polled := lstrip "ID" QueryExecutionId in
        execution_status ← call (GetQueryExecution polled) (get_query_execution polled);
        if decide (execution_status = "FAILED")
        then print_ QueryFailed;; ret false
        else
          print_ Running;;
          sleep 5;;
          run_query_poll fuel' (Some execution_status) QueryExecutionId
    end.

Definition run_query (fuel : nat) (query region athena_s3_bucket_name : string)
    : M W (option GetQueryResultsOutput) :=
  let OutputLocation := athena_s3_bucket_name +:+ "-" +:+ region in
  QueryExecutionId ←
    call (StartQueryExecution query "default" OutputLocation)
         (start_query_execution query "default" OutputLocation);
  print_ (QueryExecutionIdLine QueryExecutionId);;
  succeeded ← run_query_poll fuel None QueryExecutionId;
  if succeeded : bool
  then
    results ← call (GetQueryResults QueryExecutionId) (get_query_results QueryExecutionId);
    ret (Some results)
  else ret None.

(** The three statements, without the effects. *)
Definition query_strings (function_arns : list string)
    (table_name cloudtrail_s3_bucket_name : string) (year : Year) (region : string)
    : option (string * string * string) :=
  let function_arns_csv := slice_1_m1 (str_list function_arns) in
  create_table_query ←
    format create_table_query_template [table_name; cloudtrail_s3_bucket_name] [];
  create_partition_query ←
    format create_partiton_query_template
      [table_name; cloudtrail_s3_bucket_name; region; str_year year] [];
  last_run_query ←
    format last_run_query_template [table_name; str_year year]
      [("function_arns", function_arns_csv)];
  Some (create_table_query, create_partition_query, last_run_query).

Definition build_query_strings (function_arns : list string)
    (table_name cloudtrail_s3_bucket_name : string) (year : Year) (region : string)
    : M W (string * string * string) :=
  size ← read get_terminal_size;
  print_ (Rule (fst size));;
  of_option ValueError
    (query_strings function_arns table_name cloudtrail_s3_bucket_name year region).

Definition get_set_of_function_arns_from_result_set (result_set : list Row)
    : M W (gset string) :=
  let set_of_functions_used : gset string := ∅ in
  set_used_count 0;;
  for_each (tail result_set) set_of_functions_used
    (λ set_of_functions_used row,
       count ← get_used_count;
       set_used_count (count + 1);;
       cell ← of_option IndexError (head (Data row));
       function_arn ← of_option KeyError (VarCharValue cell);
       ret ({[function_arn]} ∪ set_of_functions_used)).

(** [l.sort(key=...)]: a stable sort by the keys, compared as [str].  The
    item goes in front of the first one whose key is not below its own, so
    items with equal keys keep their order. *)
Fixpoint insert_by_key {A} (key : A → string) (x : A) (l : list A) : list A :=
  match l with
  | [] => [x]
  | y :: l' =>
      if String.leb (key x) (key y) then x :: l else y :: insert_by_key key x l'
  end.

Definition sort_by_key {A} (key : A → string) (l : list A) : list A :=
  foldr (insert_by_key key) [] l.

(** The list comprehension of [main] that runs the statements in turn. *)
Definition run_queries (fuel : nat) (args : Args) (queries : list string)
    (done : list (option GetQueryResultsOutput))
    : M W (list (option GetQueryResultsOutput)) :=
  for_each queries done
    (λ query_results q,
       r ← run_query fuel q (region args) (athena_s3_bucket_name args);
       ret (query_results ++ [r])).

(** [main] is modelled from the creation of the two clients on (the
    diagnostics that come before only print, or raise before any client
    exists), in two parts.  [main_reconcile] is its second part, from
    "Completed queries" on: it takes the result of the last statement,
    extracts the used identifiers and prints the reconciliation. *)
Definition main_reconcile (function_arns : list string)
    (query_results : list (option GetQueryResultsOutput)) : M W unit :=
  print_ CompletedQueries;;
  last_result ← of_option IndexError (last query_results);
  last_response ← of_option TypeError last_result;
  let result_set := Rows (ResultSet last_response) in
  print_ RetrievedResults;;
  set_of_functions_used ← get_set_of_function_arns_from_result_set result_set;
  print_ (UsedSet set_of_functions_used);;
  retrieved ← get_retrieve_count;
  used ← get_used_count;
  let unusedcount := retrieved - used in
  total ← get_retrieve_count;
  print_ (UnusedSummary total unusedcount);;
  let difference_list :=
    sort_by_key lower
      (set_iteration (list_to_set function_arns ∖ set_of_functions_used)) in
  for_each difference_list tt (λ _ stale_function_arn,
    print_ (StaleFunction stale_function_arn));;
  print_ Done;;
  size ← read get_terminal_size;
  print_ (Rule (fst size)).

Definition main (args : Args) (fuel : nat) : M W unit :=
  function_arns ← retrieve_function_arns (region args);
  queries ← build_query_strings function_arns (table_name args)
    (cloudtrail_s3_bucket_name args) (year args) (region args);
  print_ StartingQueries;;
  query_results ←
    run_queries fuel args (let '(q1, q2, q3) := queries in [q1; q2; q3]) [];
  main_reconcile function_arns query_results.

End Program.

(** ** Reading a trace *)

Definition submitted (t : list event) : list string :=
  omap (λ e, match e with StartQueryExecution q _ _ => Some q | _ => None end) t.

Definition polled (t : list event) : list string :=
  omap (λ e, match e with GetQueryExecution i => Some i | _ => None end) t.

Definition fetched (t : list event) : list string :=
  omap (λ e, match e with GetQueryResults i => Some i | _ => None end) t.

Definition reported_unused (t : list event) : list string :=
  omap (λ e, match e with Print (StaleFunction a) => Some a | _ => None end) t.

Definition summaries (t : list event) : list Z :=
  omap (λ e, match e with Print (UnusedSummary _ n) => Some n | _ => None end) t.

Definition reported_unused_count (t : list event) : option Z :=
  head (summaries t).

(** A trace in which nothing is submitted once a failure message has been
    printed. *)
Definition stops_after_failure (t : list event) : Prop :=
  ∀ before after, t = before ++ Print QueryFailed :: after → submitted after = [].

(** ** A scripted world, for running the program on given answers *)

Record scripted := Scripted {
  inventory : list string;
  execution_ids : list string;
  statuses : list string;
  result_rows : list Row
}.

Definition cell (s : string) : Row := {| Data := [{| VarCharValue := Some s |}] |}.
Definition header : Row :=
  {| Data := [{| VarCharValue := Some "function_name" |};
              {| VarCharValue := Some "Last Run" |}] |}.

(** Submissions take the next id of the script (and are refused when there
    is none left); status requests take the next status (RUNNING when there
    is none left). *)
Global Instance scripted_services : Services scripted := {|
  list_functions w :=
    (Ok {| Functions := map Build_FunctionConfiguration (inventory w) |}, w);
  start_query_execution q db loc w :=
    match execution_ids w with
    | [] => (Error (ClientError "TooManyRequestsException"), w)
    | i :: ids => (Ok i, Scripted (inventory w) ids (statuses w) (result_rows w))
    end;
  get_query_execution i w :=
    match statuses w with
    | [] => (Ok "RUNNING", w)
    | st :: sts => (Ok st, Scripted (inventory w) (execution_ids w) sts (result_rows w))
    end;
  get_query_results i w := (Ok {| ResultSet := {| Rows := result_rows w |} |}, w);
  get_terminal_size w := (80, 24)%nat;
  set_iteration := elements;
  set_iteration_perm X := Permutation_refl (elements X)
|}.

Definition sample_args : Args :=
  {| region := "us-east-1"; profile := "default";
     athena_s3_bucket_name := "s3://staging";
     table_name := "cloudtrail_lambda_logs";
     cloudtrail_s3_bucket_name := "s3://trail";
     year := YearInt 2024 |}.

(** The scenario of the specification: three functions, of which A was
    invoked; the first two statements succeed at once, the usage query after
    two polls. *)
Definition scenario_world : scripted :=
  Scripted ["A"; "B"; "C"] ["7f3c"; "9a1e"; "c04b"]
    ["SUCCEEDED"; "SUCCEEDED"; "RUNNING"; "RUNNING"; "SUCCEEDED"]
    [header; cell "A"].

(** One job that is RUNNING twice and then SUCCEEDED; its id starts with
    characters that [lstrip] removes. *)
Definition slow_job_world : scripted :=
  Scripted ["A"] ["D1e5"] ["RUNNING"; "RUNNING"; "SUCCEEDED"] [header; cell "A"].

(** No function in the Region. *)
Definition empty_world : scripted :=
  Scripted [] ["7f3c"; "9a1e"; "c04b"] ["SUCCEEDED"; "SUCCEEDED"; "SUCCEEDED"]
    [header].

(** The create-table statement fails (the table is there already, say); the
    two others succeed. *)
Definition failing_world : scripted :=
  Scripted ["A"; "B"; "C"] ["7f3c"; "9a1e"; "c04b"]
    ["FAILED"; "SUCCEEDED"; "SUCCEEDED"] [header; cell "A"].

(** The usage query fails after one poll. *)
Definition usage_failed_world : scripted :=
  Scripted ["A"; "B"; "C"] ["7f3c"; "9a1e"; "c04b"]
    ["SUCCEEDED"; "SUCCEEDED"; "RUNNING"; "FAILED"] [header; cell "A"].

(** An inventory that lists the same ARN twice, none of them invoked. *)
Definition duplicate_world : scripted :=
  Scripted ["A"; "A"] ["7f3c"; "9a1e"; "c04b"]
    ["SUCCEEDED"; "SUCCEEDED"; "SUCCEEDED"] [header].

(** The log has an invocation of D, which is no longer in the inventory. *)
Definition stale_log_world : scripted :=
  Scripted ["A"; "B"; "C"] ["7f3c"; "9a1e"; "c04b"]
    ["SUCCEEDED"; "SUCCEEDED"; "SUCCEEDED"] [header; cell "D"].

(** A job that is queued, runs and is then cancelled. *)
Definition cancelled_world : scripted :=
  Scripted ["A"] ["7f3c"] ["QUEUED"; "RUNNING"; "CANCELLED"; "CANCELLED"]
    [header; cell "A"].

(** The create-table job never leaves the queue. *)
Definition stuck_world : scripted :=
  Scripted ["A"; "B"; "C"] ["7f3c"; "9a1e"; "c04b"]
    ["QUEUED"; "QUEUED"; "QUEUED"] [header; cell "A"].

(** A second scripted world, in which the services can refuse a request:
    the answer to the listing, the answers to the successive submissions
    and status requests, and the result set. *)
Record answers := Answers {
  listing : response ListFunctionsResponse;
  submissions : list (response string);
  status_answers : list (response string);
  answer_rows : list Row
}.

Global Instance answers_services : Services answers := {|
  list_functions w := (listing w, w);
  start_query_execution q db loc w :=
    match submissions w with
    | [] => (Error (ClientError "TooManyRequestsException"), w)
    | a :: rest => (a, Answers (listing w) rest (status_answers w) (answer_rows w))
    end;
  get_query_execution i w :=
    match status_answers w with
    | [] => (Ok "RUNNING", w)
    | a :: rest => (a, Answers (listing w) (submissions w) rest (answer_rows w))
    end;
  get_query_results i w := (Ok {| ResultSet := {| Rows := answer_rows w |} |}, w);
  get_terminal_size w := (80, 24)%nat;
  set_iteration := elements;
  set_iteration_perm X := Permutation_refl (elements X)
|}.

Definition three_functions : response ListFunctionsResponse :=
  Ok {| Functions := Build_FunctionConfiguration <$> ["A"; "B"; "C"] |}.

(** The second status request is throttled. *)
Definition throttled_world : answers :=
  Answers three_functions [Ok "7f3c"; Ok "9a1e"; Ok "c04b"]
    [Ok "RUNNING"; Error (ClientError "ThrottlingException")] [header; cell "A"].

(** The first submission is refused. *)
Definition refused_world : answers :=
  Answers three_functions [Error (ClientError "InvalidRequestException")] []
    [header; cell "A"].

(** The listing of the functions is refused. *)
Definition denied_world : answers :=
  Answers (Error (ClientError "AccessDeniedException")) [Ok "7f3c"] []
    [header; cell "A"].

(** The usage result has a row whose first cell is a null. *)
Definition null_cell_world : answers :=
  Answers three_functions [Ok "7f3c"; Ok "9a1e"; Ok "c04b"]
    [Ok "SUCCEEDED"; Ok "FAILED"; Ok "SUCCEEDED"]
    [header; cell "A"; {| Data := [{| VarCharValue := None |}] |}].

(** ** Vocabulary of the statements *)

(** The events that the executor leaves in a trace. *)
Definition executor_event (e : event) : Prop :=
  match e with
  | StartQueryExecution _ _ _ | GetQueryExecution _ | GetQueryResults _
  | Sleep _ | Print (QueryExecutionIdLine _) | Print QueryFailed
  | Print Running => True
  | _ => False
  end.

Section Vocabulary.
Context {W : Type} {services : Services W}.

(** [polls i w sts w']: from the world [w], the engine answers the
    successive status requests for the id [i] with the statuses [sts], and
    is then in the world [w']. *)
Inductive polls (i : string) : W → list string → W → Prop :=
| polls_nil w : polls i w [] w
| polls_cons w w1 st sts w' :
    get_query_execution i w = (Ok st, w1) →
    polls i w1 sts w' →
    polls i w (st :: sts) w'.

(** A status on which the loop goes on and polls again. *)
Definition pending (st : string) : Prop := st ≠ "SUCCEEDED" ∧ st ≠ "FAILED".

(** What the iterations that end without leaving the function put in the
    trace, one status request each. *)
Definition poll_events (i : string) (sts : list string) : list event :=
  sts ≫= λ _, [GetQueryExecution i; Print Running; Sleep 5].

(** What the executor keeps: its trace has only events of its own, and the
    two counters are as before. *)
Definition executor_run {A} (s : state W) (r : outcome A * state W * list event)
    : Prop :=
  Forall executor_event r.2
  ∧ retrieve_count r.1.2 = retrieve_count s
  ∧ used_count r.1.2 = used_count s.

End Vocabulary.

(** Column 0 of a row, and of every row after the header. *)
Definition row_arn (row : Row) : option string :=
  head (Data row) ≫= VarCharValue.

Definition used_identifiers (result_set : list Row) : option (list string) :=
  mapM row_arn (tail result_set).

(** Ascending order of the keys, and of the lowercased identifiers. *)
Definition key_le {A} (key : A → string) (x y : A) : Prop :=
  String.le (key x) (key y).

Definition lower_le : relation string := key_le lower.

(** ** Vocabulary of the further properties *)

Fixpoint str_forallb (p : ascii → bool) (s : string) : bool :=
  match s with
  | EmptyString => true
  | String c s' => p c && str_forallb p s'
  end.

(** A character that [repr] writes as it is between the quotes [quote]. *)
Definition plain_char (quote c : ascii) : bool :=
  printable (N_of_ascii c) && negb (Ascii.eqb c quote)
  && negb (Ascii.eqb c backslash).

(** [s] between two [quote] characters. *)
Definition quoted (quote : ascii) (s : string) : string :=
  String quote (s +:+ String quote EmptyString).

(** The characters of the execution ids that the engine hands out
    (lowercase hexadecimal digits and hyphens). *)
Definition uuid_char (c : ascii) : bool := str_contains c "0123456789abcdef-".

(** The part of the create-table template between the table name and the
    location: the columns, the partitioning and the formats. *)
Definition create_table_body : string :=
  String.substring 25 1704 create_table_query_template.

(** The events of the polling loop: none is a submission or a fetch. *)
Definition polling_event (e : event) : Prop :=
  match e with
  | GetQueryExecution _ | Sleep _ | Print QueryFailed | Print Running => True
  | _ => False
  end.

(** An event that is a printed line. *)
Definition printed (e : event) : Prop :=
  match e with
  | Print _ => True
  | _ => False
  end.

(** The seconds spent in [time.sleep]. *)
Definition slept (t : list event) : Z :=
  foldr Z.add 0 (omap (λ e, match e with Sleep n => Some n | _ => None end) t).

(** ** The checks of [main] on the interpreter and on the AWS CLI *)

(** [s.split(sep)] for a separator of one character: the pieces between the
    occurrences of the separator, empty pieces included. *)
Fixpoint split (sep : ascii) (s : string) : list string :=
  match s with
  | EmptyString => [EmptyString]
  | String c s' =>
      if Ascii.eqb c sep then EmptyString :: split sep s'
      else
        match split sep s' with
        | piece :: pieces => String c piece :: pieces
        | [] => [String c EmptyString]
        end
  end.

(** The white space that [int] skips at both ends: the ASCII one and, among
    the other code points below 256, the next-line and no-break spaces. *)
Definition int_space (c : ascii) : bool :=
  let n := N_of_ascii c in
  ((9 <=? n) && (n <=? 13) || (n =? 32) || (n =? 133) || (n =? 160))%N.

Definition is_digit (c : ascii) : bool :=
  let n := N_of_ascii c in ((48 <=? n) && (n <=? 57))%N.

Fixpoint skip_int_space (s : string) : string :=
  match s with
  | EmptyString => EmptyString
  | String c s' => if int_space c then skip_int_space s' else s
  end.

(** The digits of a literal, with single underscores between digits, up to
    the white space that ends it: the value and the number of digits. *)
Fixpoint int_body (acc : Z) (digits : nat) (after_underscore : bool) (s : string)
    : option (Z * nat) :=
  match s with
  | EmptyString => if after_underscore then None else Some (acc, digits)
  | String c s' =>
      if is_digit c
      then int_body (10 * acc + (Z.of_N (N_of_ascii c) - 48)) (S digits) false s'
      else if Ascii.eqb c "_"
      then (if after_underscore then None else int_body acc digits true s')
      else if after_underscore then None
      else if str_forallb int_space s then Some (acc, digits)
      else None
  end.

(** [int(s)] for a [str], in base 10; [None] stands for its [ValueError].
    [max_str_digits] is the limit of the interpreter on the number of
    digits, 0 for none. *)
Definition int_of_str (max_str_digits : nat) (s : string) : option Z :=
  let s1 := skip_int_space s in
  let '(sign, s2) :=
    match s1 with
    | String "+" r => (1, r)
    | String "-" r => (-1, r)
    | _ => (1, s1)
    end in
  match s2 with
  | EmptyString => None
  | String c _ =>
      if is_digit c then
        match int_body 0 0 false s2 with
        | Some (v, digits) =>
            if negb (Nat.eqb max_str_digits 0) && Nat.ltb max_str_digits digits
            then None else Some (sign * v)
        | None => None
        end
      else None
  end.

(** The lines that the checks print, and the exceptions that end them. *)
Inductive check_line :=
| PythonTooOld
| PythonOk
| AwsCliMissing
| AwsCliInstalled
| AwsCliTooOld
| AwsCliVersion (version : string).

Inductive check_exn :=
| MustUsePython3
| AwsCliNotInstalled
| MustUseAwsCli2
| IntValueError (literal : string)
| ListIndexError
| CheckOutputError (name : string).

(** The checks of [main] (the Python version, the presence of the AWS CLI
    and its version), as a function of what they read:
    [sys.version_info[0]], [which('aws')] and the decoded output of
    [aws --version] (or the exception of running it). *)
Definition main_checks (max_str_digits : nat) (version_info_major : Z)
    (which_aws : option string) (check_output : check_exn + string)
    : list check_line * (check_exn + unit) :=
  if version_info_major <? 3 then ([PythonTooOld], inl MustUsePython3)
  else
    match which_aws with
    | None => ([PythonOk; AwsCliMissing], inl AwsCliNotInstalled)
    | Some _ =>
        match check_output with
        | inl e => ([PythonOk; AwsCliInstalled], inl e)
        | inr output =>
            match nth_error (split " " output) 0 with
            | None => ([PythonOk; AwsCliInstalled], inl ListIndexError)
            | Some aws_cli_version =>
                match nth_error (split "/" aws_cli_version) 1 with
                | None => ([PythonOk; AwsCliInstalled], inl ListIndexError)
                | Some version =>
                    match nth_error (split "." version) 0 with
                    | None => ([PythonOk; AwsCliInstalled], inl ListIndexError)
                    | Some major =>
                        match int_of_str max_str_digits major with
                        | None =>
                            ([PythonOk; AwsCliInstalled],
                             inl (IntValueError major))
                        | Some n =>
                            if n <? 2
                            then ([PythonOk; AwsCliInstalled; AwsCliTooOld],
                                  inl MustUseAwsCli2)
                            else ([PythonOk; AwsCliInstalled;
                                   AwsCliVersion version], inr tt)
                        end
                    end
                end
            end
        end
    end.

(** * Properties *)

(** ** Strings *)

Lemma append_assoc (a b c : string) : (a +:+ b) +:+ c = a +:+ (b +:+ c).
Proof.
  induction a as [|x a IH]; [reflexivity |].
  change (String x ((a +:+ b) +:+ c) = String x (a +:+ (b +:+ c))).
  by rewrite IH.
Qed.

Lemma lstrip_length chars s :
  (String.length (lstrip chars s) ≤ String.length s)%nat.
Proof.
  induction s as [|c s IH]; simpl; [lia |].
  destruct (str_contains c chars); simpl; lia.
Qed.

(** Stripping changes nothing exactly when the first character is not one
    of those to strip. *)
Lemma lstrip_id_iff chars s :
  lstrip chars s = s ↔ starts_with_any chars s = false.
Proof.
  destruct s as [|c s]; simpl; [done |].
  destruct (str_contains c chars) eqn:Hc; [| done].
  split; [| done].
  intros Heq. pose proof (lstrip_length chars s) as Hlen.
  rewrite Heq in Hlen. simpl in Hlen. lia.
Qed.

(** ** The sort *)

Section Sorting.
Context {A : Type} (key : A → string).

Lemma insert_by_key_perm x l : insert_by_key key x l ≡ₚ x :: l.
Proof.
  induction l as [|y l IH]; simpl; [done |].
  destruct (String.leb (key x) (key y)); [done |].
  rewrite IH. apply Permutation_swap.
Qed.

Lemma sort_by_key_perm l : sort_by_key key l ≡ₚ l.
Proof.
  induction l as [|x l IH]; simpl; [done |].
  rewrite insert_by_key_perm. by f_equiv.
Qed.

Lemma insert_by_key_sorted x l :
  StronglySorted (key_le key) l →
  StronglySorted (key_le key) (insert_by_key key x l).
Proof.
  induction l as [|y l IH]; intros Hsorted; simpl.
  - by repeat constructor.
  - apply StronglySorted_inv in Hsorted as [Hl Hy].
    destruct (String.leb (key x) (key y)) eqn:Hxy.
    + assert (key_le key x y) as Hle by (unfold key_le, String.le; by rewrite Hxy).
      constructor; [by constructor |].
      constructor; [done |].
      eapply Forall_impl; [exact Hy |].
      intros z Hz. unfold key_le in *. by etrans.
    + constructor; [by apply IH |].
      apply Forall_forall. intros z Hz.
      rewrite insert_by_key_perm in Hz.
      apply elem_of_cons in Hz as [-> | Hz].
      * unfold key_le.
        destruct (total String.le (key y) (key x)) as [| Hle]; [done |].
        unfold String.le in Hle. by rewrite Hxy in Hle.
      * by eapply Forall_forall in Hy.
Qed.

Lemma sort_by_key_sorted l : StronglySorted (key_le key) (sort_by_key key l).
Proof.
  induction l as [|x l IH]; simpl; [constructor |].
  by apply insert_by_key_sorted.
Qed.

End Sorting.

(** ** Running a computation *)

Section Run.
Context {W : Type}.

Lemma bind_run {A B} (m : M W A) (k : A → M W B) s :
  (m ≫= k) s =
  match m s with
  | (Return a, s1, t1) => let '(o, s2, t2) := k a s1 in (o, s2, t1 ++ t2)
  | (Raise e, s1, t1) => (Raise e, s1, t1)
  | (OutOfFuel, s1, t1) => (OutOfFuel, s1, t1)
  end.
Proof. reflexivity. Qed.

Lemma bind_return {A B} (m : M W A) (k : A → M W B) s a s1 t1 :
  m s = (Return a, s1, t1) →
  (m ≫= k) s = let '(o, s2, t2) := k a s1 in (o, s2, t1 ++ t2).
Proof. intros Hm. by rewrite bind_run, Hm. Qed.

Lemma bind_raise {A B} (m : M W A) (k : A → M W B) s e s1 t1 :
  m s = (Raise e, s1, t1) → (m ≫= k) s = (Raise e, s1, t1).
Proof. intros Hm. by rewrite bind_run, Hm. Qed.

Lemma bind_out_of_fuel {A B} (m : M W A) (k : A → M W B) s s1 t1 :
  m s = (OutOfFuel, s1, t1) → (m ≫= k) s = (OutOfFuel, s1, t1).
Proof. intros Hm. by rewrite bind_run, Hm. Qed.

Lemma call_run {A} ev (f : W → response A * W) (s : state W) r w :
  f (world s) = (r, w) →
  call ev f s =
  (match r with Ok a => Return a | Error e => Raise e end,
   State w (retrieve_count s) (used_count s), [ev]).
Proof. intros Hf. unfold call. by rewrite Hf. Qed.

End Run.

(** ** The executor *)

Section Executor.
Context {W : Type} {services : Services W}.

Lemma run_query_poll_step fuel st0 i (s : state W) st w1 :
  st0 ≠ Some "SUCCEEDED" →
  get_query_execution (lstrip "ID" i) (world s) = (Ok st, w1) →
  run_query_poll (S fuel) st0 i s =
  if decide (st = "FAILED")
  then (Return false, State w1 (retrieve_count s) (used_count s),
        [GetQueryExecution (lstrip "ID" i); Print QueryFailed])
  else
    let '(o, s', t) :=
      run_query_poll fuel (Some st) i
        (State w1 (retrieve_count s) (used_count s)) in
    (o, s', GetQueryExecution (lstrip "ID" i) :: Print Running :: Sleep 5 :: t).
Proof.
  intros Hst Hpoll. simpl. case_decide; [done |].
  rewrite (bind_return _ _ _ _ _ _ (call_run _ _ _ _ _ Hpoll)).
  case_decide; [reflexivity |].
  repeat (rewrite bind_run; simpl).
  by destruct (run_query_poll fuel (Some st) i _) as [[[] ?] ?].
Qed.

(** The loop leaves the function on FAILED, after the failure message. *)
Lemma run_query_poll_failed i sts : ∀ fuel st0 (s : state W) w',
  st0 ≠ Some "SUCCEEDED" →
  Forall pending sts →
  polls (lstrip "ID" i) (world s) (sts ++ ["FAILED"]) w' →
  (length sts < fuel)%nat →
  run_query_poll fuel st0 i s =
  (Return false, State w' (retrieve_count s) (used_count s),
   poll_events (lstrip "ID" i) sts ++
   [GetQueryExecution (lstrip "ID" i); Print QueryFailed]).
Proof.
  induction sts as [|st sts IH]; intros fuel st0 s w' Hst0 Hpend Hpolls Hfuel;
    (destruct fuel as [|fuel]; [simpl in Hfuel; lia |]);
    inversion Hpolls as [|? w1 ? ? ? Hpoll Hrest]; subst.
  - rewrite (run_query_poll_step _ _ _ _ _ _ Hst0 Hpoll).
    inversion Hrest; subst. by rewrite decide_True.
  - apply Forall_cons in Hpend as [[Hs Hf] Hpend].
    rewrite (run_query_poll_step _ _ _ _ _ _ Hst0 Hpoll).
    rewrite decide_False by done.
    rewrite (IH fuel (Some st) _ w'); [done | congruence | done | done |].
    simpl in Hfuel. lia.
Qed.

(** The loop ends on SUCCEEDED, after one more "Running" and one more
    wait. *)
Lemma run_query_poll_succeeded i sts : ∀ fuel st0 (s : state W) w',
  st0 ≠ Some "SUCCEEDED" →
  Forall pending sts →
  polls (lstrip "ID" i) (world s) (sts ++ ["SUCCEEDED"]) w' →
  (length sts < fuel)%nat →
  run_query_poll fuel st0 i s =
  (Return true, State w' (retrieve_count s) (used_count s),
   poll_events (lstrip "ID" i) (sts ++ ["SUCCEEDED"])).
Proof.
  induction sts as [|st sts IH]; intros fuel st0 s w' Hst0 Hpend Hpolls Hfuel;
    (destruct fuel as [|fuel]; [simpl in Hfuel; lia |]);
    inversion Hpolls as [|? w1 ? ? ? Hpoll Hrest]; subst.
  - rewrite (run_query_poll_step _ _ _ _ _ _ Hst0 Hpoll).
    inversion Hrest; subst. case_decide; [discriminate |].
    destruct fuel; reflexivity.
  - apply Forall_cons in Hpend as [[Hs Hf] Hpend].
    rewrite (run_query_poll_step _ _ _ _ _ _ Hst0 Hpoll).
    rewrite decide_False by done.
    rewrite (IH fuel (Some st) _ w'); [done | congruence | done | done |].
    simpl in Hfuel. lia.
Qed.

Lemma run_query_start fuel query region bucket (s : state W) i w0 :
  start_query_execution query "default" (bucket +:+ "-" +:+ region) (world s)
    = (Ok i, w0) →
  run_query fuel query region bucket s =
  let '(o, s1, t) :=
    run_query_poll fuel None i (State w0 (retrieve_count s) (used_count s)) in
  let front :=
    [StartQueryExecution query "default" (bucket +:+ "-" +:+ region);
     Print (QueryExecutionIdLine i)] in
  match o with
  | Return true =>
      let '(r, w2) := get_query_results i (world s1) in
      (match r with Ok res => Return (Some res) | Error e => Raise e end,
       State w2 (retrieve_count s1) (used_count s1),
       front ++ t ++ [GetQueryResults i])
  | Return false => (Return None, s1, front ++ t)
  | Raise e => (Raise e, s1, front ++ t)
  | OutOfFuel => (OutOfFuel, s1, front ++ t)
  end.
Proof.
  intros Hstart. unfold run_query.
  rewrite (bind_return _ _ _ _ _ _ (call_run _ _ _ _ _ Hstart)).
  repeat (rewrite bind_run; simpl).
  destruct (run_query_poll fuel None i _) as [[[[]| |] s1] t]; simpl;
    try reflexivity.
  - rewrite bind_run. unfold call.
    destruct (get_query_results i (world s1)) as [[res|e] w2]; simpl;
      by rewrite ?app_nil_r.
  - by rewrite app_nil_r.
Qed.

(** A statement whose job ends FAILED: the failure message, no fetch, and
    no result. *)
Lemma run_query_failed fuel query region bucket (s : state W) i w0 sts w' :
  start_query_execution query "default" (bucket +:+ "-" +:+ region) (world s)
    = (Ok i, w0) →
  Forall pending sts →
  polls (lstrip "ID" i) w0 (sts ++ ["FAILED"]) w' →
  (length sts < fuel)%nat →
  run_query fuel query region bucket s =
  (Return None, State w' (retrieve_count s) (used_count s),
   [StartQueryExecution query "default" (bucket +:+ "-" +:+ region);
    Print (QueryExecutionIdLine i)] ++
   poll_events (lstrip "ID" i) sts ++
   [GetQueryExecution (lstrip "ID" i); Print QueryFailed]).
Proof.
  intros Hstart Hpend Hpolls Hfuel.
  rewrite (run_query_start _ _ _ _ _ _ _ Hstart).
  by rewrite (run_query_poll_failed i sts fuel None _ w').
Qed.

(** A statement whose job ends SUCCEEDED: the results are requested once
    the loop is over. *)
Lemma run_query_succeeded fuel query region bucket (s : state W) i w0 sts w' r w2 :
  start_query_execution query "default" (bucket +:+ "-" +:+ region) (world s)
    = (Ok i, w0) →
  Forall pending sts →
  polls (lstrip "ID" i) w0 (sts ++ ["SUCCEEDED"]) w' →
  get_query_results i w' = (r, w2) →
  (length sts < fuel)%nat →
  run_query fuel query region bucket s =
  (match r with Ok res => Return (Some res) | Error e => Raise e end,
   State w2 (retrieve_count s) (used_count s),
   [StartQueryExecution query "default" (bucket +:+ "-" +:+ region);
    Print (QueryExecutionIdLine i)] ++
   poll_events (lstrip "ID" i) (sts ++ ["SUCCEEDED"]) ++
   [GetQueryResults i]).
Proof.
  intros Hstart Hpend Hpolls Hres Hfuel.
  rewrite (run_query_start _ _ _ _ _ _ _ Hstart).
  rewrite (run_query_poll_succeeded i sts fuel None _ w') by done.
  simpl. by rewrite Hres.
Qed.

(** Every status request of the loop is for the stripped id. *)
Lemma run_query_poll_polled i : ∀ fuel st0 (s : state W),
  Forall (λ p, p = lstrip "ID" i) (polled (run_query_poll fuel st0 i s).2).
Proof.
  induction fuel as [|fuel IH]; intros st0 s; simpl;
    (case_decide; [by constructor |]); [by constructor |].
  rewrite bind_run. unfold call.
  destruct (get_query_execution _ _) as [[st|e] w1]; simpl;
    [| by repeat constructor].
  case_decide; [by repeat constructor |].
  repeat (rewrite bind_run; simpl).
  specialize (IH (Some st) (State w1 (retrieve_count s) (used_count s))).
  destruct (run_query_poll fuel (Some st) i _) as [[[] ?] t]; simpl in *;
    by constructor.
Qed.

(** With fuel, the loop polls at least once. *)
Lemma run_query_poll_polls i fuel (s : state W) :
  polled (run_query_poll (S fuel) None i s).2 ≠ [].
Proof.
  simpl. rewrite bind_run. unfold call.
  destruct (get_query_execution _ _) as [[st|e] w1]; simpl; [| done].
  case_decide; [done |].
  repeat (rewrite bind_run; simpl).
  by destruct (run_query_poll fuel (Some st) i _) as [[[] ?] t].
Qed.

(** C6: for a job whose successive status polls return RUNNING, RUNNING,
    SUCCEEDED, the executor makes exactly three status requests, and asks
    for the result set only after the third one: the request for the results
    is the last event of the run, and nothing before it is a fetch. *)
Theorem run_query_running_running_succeeded
    fuel query region bucket (s : state W) i w0 w1 w2 w3 res w4 :
  start_query_execution query "default" (bucket +:+ "-" +:+ region) (world s)
    = (Ok i, w0) →
  get_query_execution (lstrip "ID" i) w0 = (Ok "RUNNING", w1) →
  get_query_execution (lstrip "ID" i) w1 = (Ok "RUNNING", w2) →
  get_query_execution (lstrip "ID" i) w2 = (Ok "SUCCEEDED", w3) →
  get_query_results i w3 = (Ok res, w4) →
  (3 ≤ fuel)%nat →
  let before_fetch :=
    [StartQueryExecution query "default" (bucket +:+ "-" +:+ region);
     Print (QueryExecutionIdLine i);
     GetQueryExecution (lstrip "ID" i); Print Running; Sleep 5;
     GetQueryExecution (lstrip "ID" i); Print Running; Sleep 5;
     GetQueryExecution (lstrip "ID" i); Print Running; Sleep 5] in
  run_query fuel query region bucket s
  = (Return (Some res), State w4 (retrieve_count s) (used_count s),
     before_fetch ++ [GetQueryResults i])
  ∧ length (polled (before_fetch ++ [GetQueryResults i])) = 3%nat
  ∧ fetched before_fetch = [].
Proof.
  intros Hstart Hp1 Hp2 Hp3 Hres Hfuel before_fetch.
  split; [| done].
  rewrite (run_query_succeeded fuel query region bucket s i w0
             ["RUNNING"; "RUNNING"] w3 (Ok res) w4);
    [done | done | | | done | simpl; lia].
  - repeat (constructor; [split; discriminate |]). constructor.
  - repeat (econstructor; [eassumption |]). constructor.
Qed.

(** C9: the status requests of a submitted query all carry the execution
    id returned at submission with its leading I and D characters stripped
    (and with fuel there is at least one such request); that id is the
    submitted one exactly when the submitted id does not begin with I or
    D, so otherwise the status is requested for another id. *)
Theorem run_query_polls_stripped_id
    fuel query region bucket (s : state W) i w0 :
  start_query_execution query "default" (bucket +:+ "-" +:+ region) (world s)
    = (Ok i, w0) →
  let t := (run_query fuel query region bucket s).2 in
  Forall (λ p, p = lstrip "ID" i) (polled t)
  ∧ ((0 < fuel)%nat → polled t ≠ [])
  ∧ (lstrip "ID" i = i ↔ starts_with_any "ID" i = false).
Proof.
  intros Hstart t. subst t.
  rewrite (run_query_start _ _ _ _ _ _ _ Hstart).
  pose proof (run_query_poll_polled i fuel None
                (State w0 (retrieve_count s) (used_count s))) as Hall.
  assert ((0 < fuel)%nat →
          polled (run_query_poll fuel None i
                    (State w0 (retrieve_count s) (used_count s))).2 ≠ [])
    as Hsome.
  { destruct fuel; [lia |]. intros _. apply run_query_poll_polls. }
  split_and!; [| | apply lstrip_id_iff].
  - destruct (run_query_poll fuel None i _) as [[[[]| |] s1] t]; simpl in *;
      try done.
    destruct (get_query_results i (world s1)) as [r w2]; simpl.
    unfold polled in *. rewrite omap_app. simpl. by rewrite app_nil_r.
  - intros Hfuel. specialize (Hsome Hfuel).
    destruct (run_query_poll fuel None i _) as [[[[]| |] s1] t]; simpl in *;
      try done.
    destruct (get_query_results i (world s1)) as [r w2]; simpl.
    unfold polled in *. rewrite omap_app. simpl. by rewrite app_nil_r.
Qed.

End Executor.

Lemma run_query_running_running_succeeded_witness :
  let res := {| ResultSet := {| Rows := [header; cell "A"] |} |} in
  run_query 3 "select 1" "us-east-1" "s3://staging" (initial slow_job_world)
  = (Return (Some res),
     State (Scripted ["A"] [] [] [header; cell "A"]) None None,
     [StartQueryExecution "select 1" "default" "s3://staging-us-east-1";
      Print (QueryExecutionIdLine "D1e5");
      GetQueryExecution "1e5"; Print Running; Sleep 5;
      GetQueryExecution "1e5"; Print Running; Sleep 5;
      GetQueryExecution "1e5"; Print Running; Sleep 5;
      GetQueryResults "D1e5"]).
Proof.
  intros res.
  apply (run_query_running_running_succeeded 3 "select 1" "us-east-1"
           "s3://staging" (initial slow_job_world) "D1e5"
           (Scripted ["A"] [] ["RUNNING"; "RUNNING"; "SUCCEEDED"] [header; cell "A"])
           (Scripted ["A"] [] ["RUNNING"; "SUCCEEDED"] [header; cell "A"])
           (Scripted ["A"] [] ["SUCCEEDED"] [header; cell "A"])
           (Scripted ["A"] [] [] [header; cell "A"])
           res
           (Scripted ["A"] [] [] [header; cell "A"]));
    first [reflexivity | lia].
Defined.

Lemma run_query_polls_stripped_id_witness :
  let t := (run_query 3 "select 1" "us-east-1" "s3://staging"
              (initial slow_job_world)).2 in
  Forall (λ p, p = "1e5") (polled t)
  ∧ ((0 < 3)%nat → polled t ≠ [])
  ∧ (lstrip "ID" "D1e5" = "D1e5" ↔ starts_with_any "ID" "D1e5" = false).
Proof.
  apply (run_query_polls_stripped_id 3 "select 1" "us-east-1" "s3://staging"
           (initial slow_job_world) "D1e5"
           (Scripted ["A"] [] ["RUNNING"; "RUNNING"; "SUCCEEDED"]
              [header; cell "A"])).
  reflexivity.
Defined.

(** ** The statements built by [build_query_strings] *)

Section Build.
Context {W : Type} {services : Services W}.

Lemma format_create_table table_name location :
  is_Some (format create_table_query_template [table_name; location] []).
Proof. vm_compute. eexists. reflexivity. Qed.

Lemma format_create_partition table_name location region y :
  format create_partiton_query_template [table_name; location; region; y] []
  = Some ("
    ALTER TABLE " +:+ table_name +:+ " add partition (year=" +:+ dq +:+
       y +:+ dq +:+ ")
    location '" +:+
       (location +:+ "/CloudTrail/" +:+ region +:+ "/" +:+ y +:+ "/")
       +:+ "'").
Proof. rewrite !append_assoc. vm_compute. reflexivity. Qed.

Lemma format_last_run table_name y function_arns_csv :
  is_Some (format last_run_query_template [table_name; y]
             [("function_arns", function_arns_csv)]).
Proof. vm_compute. eexists. reflexivity. Qed.

Lemma query_strings_some function_arns table_name location year region :
  is_Some (query_strings function_arns table_name location year region).
Proof.
  unfold query_strings.
  destruct (format_create_table table_name location) as [q1 ->].
  rewrite format_create_partition.
  destruct (format_last_run table_name (str_year year)
              (slice_1_m1 (str_list function_arns))) as [q3 ->].
  by eexists.
Qed.

Lemma build_query_strings_run function_arns table_name location year region
    (s : state W) q :
  query_strings function_arns table_name location year region = Some q →
  build_query_strings function_arns table_name location year region s
  = (Return q, s, [Print (Rule (fst (get_terminal_size (world s))))]).
Proof.
  intros Hq. unfold build_query_strings. rewrite Hq. reflexivity.
Qed.

Lemma query_strings_partition function_arns table_name location year region q1 q2 q3 :
  query_strings function_arns table_name location year region = Some (q1, q2, q3) →
  format create_partiton_query_template
    [table_name; location; region; str_year year] [] = Some q2.
Proof.
  unfold query_strings. intros Hq.
  destruct (format create_table_query_template _ _); [| done].
  destruct (format create_partiton_query_template _ _); [| done].
  destruct (format last_run_query_template _ _); [| done].
  simpl in Hq. congruence.
Qed.

(** C8: for every table name, CloudTrail location, region and year, the
    second statement of the Query Template Builder adds the partition of the
    given year, at the location made of the CloudTrail location,
    [/CloudTrail/], the region, a slash, the year and a closing slash. *)
Theorem build_query_strings_add_partition
    function_arns table_name location year region (s : state W) :
  ∃ create_table_query last_run_query,
    build_query_strings function_arns table_name location year region s
    = (Return
         (create_table_query,
          "
    ALTER TABLE " +:+ table_name +:+ " add partition (year=" +:+ dq +:+
            str_year year +:+ dq +:+ ")
    location '" +:+
            (location +:+ "/CloudTrail/" +:+ region +:+ "/" +:+
             str_year year +:+ "/")
            +:+ "'",
          last_run_query),
       s, [Print (Rule (fst (get_terminal_size (world s))))]).
Proof.
  destruct (query_strings_some function_arns table_name location year region)
    as [[[q1 q2] q3] Hq].
  exists q1, q3. rewrite (build_query_strings_run _ _ _ _ _ _ _ Hq).
  pose proof (query_strings_partition _ _ _ _ _ _ _ _ Hq) as Hq2.
  rewrite format_create_partition in Hq2. by injection Hq2 as <-.
Qed.

End Build.

(** C7: two invocations of the Query Template Builder on the same
    identifier list, table name, CloudTrail location, year and region return
    the same triple of SQL strings, whatever the worlds and the states they
    run in. *)
Theorem build_query_strings_deterministic
    {W1 W2 : Type} {services1 : Services W1} {services2 : Services W2}
    function_arns table_name location year region
    (s1 : state W1) (s2 : state W2) :
  ∃ queries : string * string * string,
    (build_query_strings function_arns table_name location year region s1).1.1
      = Return queries ∧
    (build_query_strings function_arns table_name location year region s2).1.1
      = Return queries.
Proof.
  destruct (query_strings_some function_arns table_name location year region)
    as [q Hq].
  exists q. by rewrite !(build_query_strings_run _ _ _ _ _ _ q Hq).
Qed.

(** ** The inventory and the used identifiers *)

Section Inventory.
Context {W : Type} {services : Services W}.

Lemma retrieve_loop fns : ∀ (acc : list string) n (s : state W),
  retrieve_count s = Some n →
  for_each fns acc
    (λ function_arns fn,
       count ← get_retrieve_count;
       set_retrieve_count (count + 1);;
       ret (function_arns ++ [FunctionArn fn])) s
  = (Return (acc ++ map FunctionArn fns),
     State (world s) (Some (n + Z.of_nat (length fns))) (used_count s), []).
Proof.
  induction fns as [|fn fns IH]; intros acc n s Hn; simpl.
  - rewrite app_nil_r, Z.add_0_r, <- Hn. by destruct s.
  - rewrite bind_run.
    rewrite (bind_run get_retrieve_count). unfold get_retrieve_count at 1.
    rewrite Hn. simpl.
    rewrite (IH _ (n + 1)) by done. simpl.
    rewrite <- app_assoc. simpl.
    by replace (n + 1 + Z.of_nat (length fns))
      with (n + Z.of_nat (S (length fns))) by lia.
Qed.

(** The fetch of a non-empty inventory returns the ARNs in the order of the
    response and leaves their number in the counter. *)
Lemma retrieve_function_arns_some region (s : state W) fns w1 :
  list_functions (world s) = (Ok {| Functions := fns |}, w1) →
  fns ≠ [] →
  retrieve_function_arns region s
  = (Return (map FunctionArn fns),
     State w1 (Some (Z.of_nat (length fns))) (used_count s),
     [ListFunctions; Print (FoundFunctions (Z.of_nat (length fns)) region)]).
Proof.
  intros Hlist Hfns. unfold retrieve_function_arns.
  rewrite bind_run. simpl.
  rewrite (bind_return _ _ _ _ _ _
             (call_run ListFunctions list_functions
                (State (world s) (Some 0) (used_count s)) _ _ Hlist)).
  simpl.
  rewrite bind_run, (retrieve_loop fns [] 0) by done. simpl.
  repeat (rewrite bind_run; simpl).
  destruct fns as [|fn fns]; [done |]. reflexivity.
Qed.

(** The fetch of an empty inventory announces the exit and leaves through
    [sys.exit()]. *)
Lemma retrieve_function_arns_empty region (s : state W) w1 :
  list_functions (world s) = (Ok {| Functions := [] |}, w1) →
  retrieve_function_arns region s
  = (Raise (SystemExit None), State w1 (Some 0) (used_count s),
     [ListFunctions; Print (FoundFunctions 0 region); Print WillExit]).
Proof.
  intros Hlist. unfold retrieve_function_arns.
  rewrite bind_run. simpl.
  rewrite (bind_return _ _ _ _ _ _
             (call_run ListFunctions list_functions
                (State (world s) (Some 0) (used_count s)) _ _ Hlist)).
  reflexivity.
Qed.

Lemma used_loop rows : ∀ ids (acc : gset string) n (s : state W),
  used_count s = Some n →
  mapM row_arn rows = Some ids →
  for_each rows acc
    (λ set_of_functions_used row,
       count ← get_used_count;
       set_used_count (count + 1);;
       cell ← of_option IndexError (head (Data row));
       function_arn ← of_option KeyError (VarCharValue cell);
       ret ({[function_arn]} ∪ set_of_functions_used)) s
  = (Return (list_to_set ids ∪ acc),
     State (world s) (retrieve_count s) (Some (n + Z.of_nat (length ids))), []).
Proof.
  induction rows as [|row rows IH]; intros ids acc n s Hn Hids.
  - injection Hids as <-. simpl.
    rewrite Z.add_0_r, <- Hn, (left_id_L ∅ (∪)). by destruct s.
  - simpl in Hids.
    destruct (row_arn row) as [arn|] eqn:Hrow; [| done]. simpl in Hids.
    destruct (mapM row_arn rows) as [ids'|] eqn:Hrest; [| done].
    injection Hids as <-.
    unfold row_arn in Hrow.
    destruct (head (Data row)) as [c|] eqn:Hhead; [| done]. simpl in Hrow.
    simpl.
    rewrite bind_run.
    rewrite (bind_run get_used_count). unfold get_used_count at 1.
    rewrite Hn. simpl. rewrite Hhead. simpl.
    do 2 (rewrite bind_run; simpl). rewrite Hrow.
    repeat (rewrite bind_run; simpl).
    rewrite (IH ids' _ (n + 1)) by done. simpl.
    replace (n + 1 + Z.of_nat (length ids'))
      with (n + Z.of_nat (S (length ids'))) by lia.
    do 3 f_equal. apply set_eq. intros x. rewrite !elem_of_union. tauto.
Qed.

(** The extraction returns the set of the identifiers in column 0 of the
    rows after the header and counts these rows. *)
Lemma get_set_of_function_arns_from_result_set_run result_set ids (s : state W) :
  used_identifiers result_set = Some ids →
  get_set_of_function_arns_from_result_set result_set s
  = (Return (list_to_set ids),
     State (world s) (retrieve_count s) (Some (Z.of_nat (length ids))), []).
Proof.
  intros Hids. unfold get_set_of_function_arns_from_result_set.
  rewrite bind_run. simpl.
  rewrite (used_loop _ ids ∅ 0) by done. simpl.
  by rewrite (right_id_L ∅ (∪)).
Qed.

Lemma print_loop (l : list string) (s : state W) :
  for_each l tt (λ _ stale_function_arn, print_ (StaleFunction stale_function_arn)) s
  = (Return tt, s, (λ a, Print (StaleFunction a)) <$> l).
Proof.
  induction l as [|a l IH]; simpl; [done |].
  rewrite bind_run. simpl. by rewrite IH.
Qed.

End Inventory.

(** ** The run of the three statements *)

Section Statements.
Context {W : Type} {services : Services W}.

Lemma run_query_poll_executor i : ∀ fuel st0 (s : state W),
  executor_run s (run_query_poll fuel st0 i s).
Proof.
  unfold executor_run.
  induction fuel as [|fuel IH]; intros st0 s; simpl;
    (case_decide; [by repeat constructor |]); [by repeat constructor |].
  rewrite bind_run. unfold call.
  destruct (get_query_execution _ _) as [[st|e] w1]; simpl;
    [| by repeat constructor].
  case_decide; [by repeat constructor |].
  repeat (rewrite bind_run; simpl).
  specialize (IH (Some st) (State w1 (retrieve_count s) (used_count s))).
  destruct (run_query_poll fuel (Some st) i _) as [[[] ?] t]; simpl in *;
    destruct IH as (? & ? & ?); by repeat constructor.
Qed.

Lemma run_query_executor fuel query region bucket (s : state W) :
  executor_run s (run_query fuel query region bucket s).
Proof.
  unfold executor_run, run_query. rewrite bind_run. unfold call.
  destruct (start_query_execution _ _ _ _) as [[i|e] w0]; simpl;
    [| by repeat constructor].
  repeat (rewrite bind_run; simpl).
  pose proof (run_query_poll_executor i fuel None
                (State w0 (retrieve_count s) (used_count s))) as (Ht & Hr & Hu).
  destruct (run_query_poll fuel None i _) as [[[[]| |] s1] t]; simpl in *.
  - rewrite bind_run.
    destruct (get_query_results i (world s1)) as [[res|e] w2]; simpl;
      (split; [| done]); repeat (apply Forall_cons_2; [exact I |]);
      apply Forall_app_2; by repeat constructor.
  - rewrite app_nil_r. by repeat constructor.
  - by repeat constructor.
  - by repeat constructor.
Qed.

Lemma run_queries_cons fuel args q queries done (s : state W) :
  run_queries fuel args (q :: queries) done s =
  match run_query fuel q (region args) (athena_s3_bucket_name args) s with
  | (Return r, s1, t1) =>
      let '(o, s2, t2) := run_queries fuel args queries (done ++ [r]) s1 in
      (o, s2, t1 ++ t2)
  | (Raise e, s1, t1) => (Raise e, s1, t1)
  | (OutOfFuel, s1, t1) => (OutOfFuel, s1, t1)
  end.
Proof.
  unfold run_queries. simpl. repeat (rewrite bind_run; simpl).
  destruct (run_query fuel q _ _ s) as [[[] s1] t1]; simpl; try done.
  by rewrite app_nil_r.
Qed.

Lemma run_queries_executor fuel args queries : ∀ done (s : state W),
  executor_run s (run_queries fuel args queries done s).
Proof.
  induction queries as [|q queries IH]; intros done s.
  - by repeat constructor.
  - rewrite run_queries_cons.
    pose proof (run_query_executor fuel q (region args)
                  (athena_s3_bucket_name args) s) as (Ht & Hr & Hu).
    destruct (run_query fuel q _ _ s) as [[[r| |] s1] t1]; simpl in *;
      try by repeat constructor.
    specialize (IH (done ++ [r]) s1). unfold executor_run in *.
    destruct (run_queries fuel args queries _ s1) as [[o s2] t2]; simpl in *.
    destruct IH as (Ht2 & Hr2 & Hu2).
    split_and!; [by apply Forall_app | congruence | congruence].
Qed.

(** The results come in the order of the statements, after those already
    there. *)
Lemma run_queries_app fuel args queries1 queries2 :
  ∀ done (s : state W) rs s1 t1,
  run_queries fuel args queries1 done s = (Return rs, s1, t1) →
  run_queries fuel args (queries1 ++ queries2) done s =
  let '(o, s2, t2) := run_queries fuel args queries2 rs s1 in
  (o, s2, t1 ++ t2).
Proof.
  induction queries1 as [|q queries1 IH]; intros done s rs s1 t1 Hrun.
  - injection Hrun as <- <- <-. simpl.
    by destruct (run_queries fuel args queries2 done s) as [[o s2] t2].
  - simpl. rewrite run_queries_cons in Hrun |- *.
    destruct (run_query fuel q _ _ s) as [[[r| |] s0] t0]; try done.
    destruct (run_queries fuel args queries1 _ s0) as [[o' s'] t'] eqn:Hrest.
    injection Hrun as -> <- <-.
    rewrite (IH _ _ _ _ _ Hrest).
    destruct (run_queries fuel args queries2 rs s') as [[o2 s2] t2].
    by rewrite app_assoc.
Qed.

Lemma executor_events_report t :
  Forall executor_event t → reported_unused t = [] ∧ summaries t = [].
Proof.
  intros Ht. unfold reported_unused, summaries.
  induction Ht as [|e t He Ht [IH1 IH2]]; [done |].
  destruct e as [| | | | |[]]; simpl in *; try done.
Qed.

Lemma reported_unused_stale l :
  reported_unused ((λ a, Print (StaleFunction a)) <$> l) = l
  ∧ summaries ((λ a, Print (StaleFunction a)) <$> l) = [].
Proof.
  unfold reported_unused, summaries.
  induction l as [|a l [IH1 IH2]]; [done |].
  split; simpl; [f_equal; exact IH1 | exact IH2].
Qed.

End Statements.

(** ** The whole run *)

Section Main.
Context {W : Type} {services : Services W}.

Lemma main_empty args fuel (s : state W) w1 :
  list_functions (world s) = (Ok {| Functions := [] |}, w1) →
  main args fuel s
  = (Raise (SystemExit None), State w1 (Some 0) (used_count s),
     [ListFunctions; Print (FoundFunctions 0 (region args)); Print WillExit]).
Proof.
  intros Hlist. unfold main.
  by rewrite (bind_raise _ _ _ _ _ _ (retrieve_function_arns_empty _ _ _ Hlist)).
Qed.

(** With a non-empty inventory, [main] builds the statements, runs them in
    turn and hands their results to the reconciliation. *)
Lemma main_run args fuel (s : state W) fns w1 q1 q2 q3 :
  list_functions (world s) = (Ok {| Functions := fns |}, w1) →
  fns ≠ [] →
  query_strings (map FunctionArn fns) (table_name args)
    (cloudtrail_s3_bucket_name args) (year args) (region args)
    = Some (q1, q2, q3) →
  main args fuel s =
  let front :=
    [ListFunctions;
     Print (FoundFunctions (Z.of_nat (length fns)) (region args));
     Print (Rule (fst (get_terminal_size w1)));
     Print StartingQueries] in
  match run_queries fuel args [q1; q2; q3] []
          (State w1 (Some (Z.of_nat (length fns))) (used_count s)) with
  | (Return rs, s2, t2) =>
      let '(o, s3, t3) := main_reconcile (map FunctionArn fns) rs s2 in
      (o, s3, front ++ t2 ++ t3)
  | (Raise e, s2, t2) => (Raise e, s2, front ++ t2)
  | (OutOfFuel, s2, t2) => (OutOfFuel, s2, front ++ t2)
  end.
Proof.
  intros Hlist Hfns Hq. unfold main.
  rewrite (bind_return _ _ _ _ _ _
             (retrieve_function_arns_some (region args) _ _ _ Hlist Hfns)).
  rewrite (bind_return _ _ _ _ _ _ (build_query_strings_run _ _ _ _ _ _ _ Hq)).
  repeat (rewrite bind_run; simpl).
  destruct (run_queries fuel args [q1; q2; q3] [] _) as [[[rs| |] s2] t2];
    simpl; try done.
  by destruct (main_reconcile (map FunctionArn fns) rs s2) as [[o s3] t3].
Qed.

(** The last statement left no result: the subscript raises. *)
Lemma main_reconcile_none function_arns rs (s : state W) :
  last rs = Some None →
  main_reconcile function_arns rs s
  = (Raise TypeError, s, [Print CompletedQueries]).
Proof.
  intros Hlast. unfold main_reconcile.
  rewrite bind_run. simpl. rewrite Hlast. reflexivity.
Qed.

(** The last statement left a result: the report. *)
Lemma main_reconcile_some function_arns rs (s : state W) res ids n :
  last rs = Some (Some res) →
  used_identifiers (Rows (ResultSet res)) = Some ids →
  retrieve_count s = Some n →
  main_reconcile function_arns rs s
  = (Return tt,
     State (world s) (Some n) (Some (Z.of_nat (length ids))),
     [Print CompletedQueries; Print RetrievedResults;
      Print (UsedSet (list_to_set ids));
      Print (UnusedSummary n (n - Z.of_nat (length ids)))]
     ++ ((λ a, Print (StaleFunction a)) <$>
           sort_by_key lower
             (set_iteration (list_to_set function_arns ∖ list_to_set ids)))
     ++ [Print Done; Print (Rule (fst (get_terminal_size (world s))))]).
Proof.
  intros Hlast Hids Hn. unfold main_reconcile.
  destruct s as [w rc uc]. simpl in Hn. subst rc.
  rewrite bind_run. simpl. rewrite Hlast. simpl.
  do 4 (rewrite bind_run; simpl).
  rewrite (get_set_of_function_arns_from_result_set_run _ ids) by done.
  simpl. repeat (rewrite bind_run; simpl).
  rewrite print_loop. reflexivity.
Qed.

(** The general form of the report: the unused list is the sorted
    iteration of the set difference, the count is the difference of the two
    counters. *)
Lemma main_report args fuel (s : state W) fns w1 q1 q2 q3 rs s2 t2 res ids :
  list_functions (world s) = (Ok {| Functions := fns |}, w1) →
  fns ≠ [] →
  query_strings (map FunctionArn fns) (table_name args)
    (cloudtrail_s3_bucket_name args) (year args) (region args)
    = Some (q1, q2, q3) →
  run_queries fuel args [q1; q2; q3] []
    (State w1 (Some (Z.of_nat (length fns))) (used_count s))
    = (Return rs, s2, t2) →
  last rs = Some (Some res) →
  used_identifiers (Rows (ResultSet res)) = Some ids →
  ∃ s3 t,
    main args fuel s = (Return tt, s3, t)
    ∧ reported_unused t
      = sort_by_key lower
          (set_iteration
             (list_to_set (map FunctionArn fns) ∖ list_to_set ids))
    ∧ reported_unused_count t
      = Some (Z.of_nat (length fns) - Z.of_nat (length ids)).
Proof.
  intros Hlist Hfns Hq Hrun Hlast Hids.
  rewrite (main_run _ _ _ _ _ _ _ _ Hlist Hfns Hq), Hrun.
  pose proof (run_queries_executor fuel args [q1; q2; q3] []
                (State w1 (Some (Z.of_nat (length fns))) (used_count s)))
    as (Ht2 & Hr & _).
  rewrite Hrun in Ht2, Hr. simpl in Ht2, Hr.
  rewrite (main_reconcile_some _ _ _ _ _ _ Hlast Hids Hr).
  apply executor_events_report in Ht2 as [Hu2 Hs2].
  eexists _, _. split; [reflexivity |].
  unfold reported_unused_count.
  unfold reported_unused, summaries in *.
  rewrite !omap_app, Hu2, Hs2.
  pose proof (reported_unused_stale
                (sort_by_key lower
                   (set_iteration
                      (list_to_set (map FunctionArn fns) ∖ list_to_set ids))))
    as [Hstale Hnone].
  unfold reported_unused, summaries in Hstale, Hnone.
  rewrite Hstale, Hnone. simpl. by rewrite app_nil_r.
Qed.

(** C5: when the inventory fetch returns no identifier, the program ends at
    once through [sys.exit()], before any statement is built (the builder
    starts by printing a rule, and there is none) or submitted. *)
Theorem main_empty_inventory_stops args fuel (s : state W) w1 :
  list_functions (world s) = (Ok {| Functions := [] |}, w1) →
  let t := [ListFunctions; Print (FoundFunctions 0 (region args));
            Print WillExit] in
  main args fuel s
  = (Raise (SystemExit None), State w1 (Some 0) (used_count s), t)
  ∧ submitted t = []
  ∧ ∀ columns, Print (Rule columns) ∉ t.
Proof.
  intros Hlist t. split_and!; [by apply main_empty | done |].
  intros columns Hin. subst t.
  repeat (apply elem_of_cons in Hin as [? | Hin]; [done |]).
  by apply elem_of_nil in Hin.
Qed.

(** C4, amended: when the inventory fetch returns an empty list of function
    identifiers, the process terminates, and its exit status is 0:
    [sys.exit()] is called without an argument. *)
Theorem main_empty_inventory_exit_status args fuel (s : state W) w1 :
  list_functions (world s) = (Ok {| Functions := [] |}, w1) →
  exit_status (main args fuel s).1.1 = Some 0.
Proof. intros Hlist. by rewrite (main_empty _ _ _ _ Hlist). Qed.

(** Every run of a statement starts by submitting it. *)
Lemma run_query_submits fuel query region bucket (s : state W) :
  ∃ o s1 t,
    run_query fuel query region bucket s
    = (o, s1, StartQueryExecution query "default" (bucket +:+ "-" +:+ region) :: t).
Proof.
  destruct (start_query_execution query "default" (bucket +:+ "-" +:+ region)
              (world s)) as [[i|e] w0] eqn:Hstart.
  - rewrite (run_query_start _ _ _ _ _ _ _ Hstart).
    destruct (run_query_poll fuel None i _) as [[[[]| |] s1] t]; simpl;
      [destruct (get_query_results i (world s1)) as [r w2] | ..];
      by eexists _, _, _.
  - unfold run_query. rewrite bind_run, (call_run _ _ _ _ _ Hstart).
    by eexists _, _, _.
Qed.

(** C3, amended: when the job of a submitted statement reports FAILED, the
    executor prints the failure message and returns no result for that
    statement, without fetching; the run is not aborted there: the next
    statement of the sequence is submitted right after the failure
    message. *)
Theorem run_queries_continue_after_failed
    fuel args q q' rest done (s : state W) i w0 sts w' :
  let OutputLocation := athena_s3_bucket_name args +:+ "-" +:+ region args in
  start_query_execution q "default" OutputLocation (world s) = (Ok i, w0) →
  Forall pending sts →
  polls (lstrip "ID" i) w0 (sts ++ ["FAILED"]) w' →
  (length sts < fuel)%nat →
  let failed :=
    [StartQueryExecution q "default" OutputLocation;
     Print (QueryExecutionIdLine i)] ++
    poll_events (lstrip "ID" i) sts ++
    [GetQueryExecution (lstrip "ID" i); Print QueryFailed] in
  run_query fuel q (region args) (athena_s3_bucket_name args) s
  = (Return None, State w' (retrieve_count s) (used_count s), failed)
  ∧ ∃ o s2 t2,
      run_queries fuel args (q :: q' :: rest) done s
      = (o, s2, failed ++ StartQueryExecution q' "default" OutputLocation :: t2).
Proof.
  intros loc Hstart Hpend Hpolls Hfuel failed.
  pose proof (run_query_failed fuel q (region args) (athena_s3_bucket_name args)
                s i w0 sts w' Hstart Hpend Hpolls Hfuel) as Hfailed.
  split; [exact Hfailed |].
  rewrite run_queries_cons, Hfailed, run_queries_cons.
  destruct (run_query_submits fuel q' (region args) (athena_s3_bucket_name args)
              (State w' (retrieve_count s) (used_count s)))
    as (o1 & s1 & t1 & ->).
  destruct o1 as [r| |]; [| by eexists _, _, _ ..].
  destruct (run_queries fuel args rest _ s1) as [[o2 s2] t2].
  by eexists _, _, _.
Qed.

(** C10: when the usage query, the last statement, reports FAILED, the
    executor returns no result for it, [main] subscripts that result all
    the same, and the run ends in a [TypeError] that nobody catches (exit
    status 1), right after "Completed queries". *)
Theorem main_usage_query_failed
    args fuel (s : state W) fns w1 q1 q2 q3 rs s2 t2 i w3 sts w4 :
  let OutputLocation := athena_s3_bucket_name args +:+ "-" +:+ region args in
  list_functions (world s) = (Ok {| Functions := fns |}, w1) →
  fns ≠ [] →
  query_strings (map FunctionArn fns) (table_name args)
    (cloudtrail_s3_bucket_name args) (year args) (region args)
    = Some (q1, q2, q3) →
  run_queries fuel args [q1; q2] []
    (State w1 (Some (Z.of_nat (length fns))) (used_count s))
    = (Return rs, s2, t2) →
  start_query_execution q3 "default" OutputLocation (world s2) = (Ok i, w3) →
  Forall pending sts →
  polls (lstrip "ID" i) w3 (sts ++ ["FAILED"]) w4 →
  (length sts < fuel)%nat →
  let s3 := State w4 (retrieve_count s2) (used_count s2) in
  let t3 :=
    [StartQueryExecution q3 "default" OutputLocation;
     Print (QueryExecutionIdLine i)] ++
    poll_events (lstrip "ID" i) sts ++
    [GetQueryExecution (lstrip "ID" i); Print QueryFailed] in
  run_query fuel q3 (region args) (athena_s3_bucket_name args) s2
  = (Return None, s3, t3)
  ∧ main args fuel s
    = (Raise TypeError, s3,
       [ListFunctions;
        Print (FoundFunctions (Z.of_nat (length fns)) (region args));
        Print (Rule (fst (get_terminal_size w1)));
        Print StartingQueries] ++ (t2 ++ t3) ++ [Print CompletedQueries])
  ∧ exit_status (main args fuel s).1.1 = Some 1.
Proof.
  intros loc Hlist Hfns Hq Hrun Hstart Hpend Hpolls Hfuel s3 t3.
  pose proof (run_query_failed fuel q3 (region args) (athena_s3_bucket_name args)
                s2 i w3 sts w4 Hstart Hpend Hpolls Hfuel) as Hfailed.
  assert (main args fuel s
          = (Raise TypeError, s3,
             [ListFunctions;
              Print (FoundFunctions (Z.of_nat (length fns)) (region args));
              Print (Rule (fst (get_terminal_size w1)));
              Print StartingQueries] ++ (t2 ++ t3) ++ [Print CompletedQueries]))
    as Hmain.
  { rewrite (main_run _ _ _ _ _ _ _ _ Hlist Hfns Hq).
    change [q1; q2; q3] with ([q1; q2] ++ [q3]).
    rewrite (run_queries_app fuel args [q1; q2] [q3] _ _ _ _ _ Hrun).
    rewrite run_queries_cons, Hfailed. simpl.
    rewrite (main_reconcile_none _ (rs ++ [None])) by apply last_snoc.
    by rewrite app_nil_r. }
  split_and!; [exact Hfailed | exact Hmain | by rewrite Hmain].
Qed.

(** C1, amended: for every non-empty inventory list and every result set of
    the usage query whose identifiers (column 0 of the rows after the header)
    are all in the inventory, the reported unused list is the set difference
    of the inventory and the used set, each identifier once, in ascending
    order of the lowercased identifiers; and, provided no identifier is
    repeated in the inventory list nor in the rows, the reported unused
    count is the length of that list. *)
Theorem main_reports_sorted_difference
    args fuel (s : state W) fns w1 q1 q2 q3 rs s2 t2 res ids :
  let inventory := map FunctionArn fns in
  list_functions (world s) = (Ok {| Functions := fns |}, w1) →
  fns ≠ [] →
  query_strings inventory (table_name args)
    (cloudtrail_s3_bucket_name args) (year args) (region args)
    = Some (q1, q2, q3) →
  run_queries fuel args [q1; q2; q3] []
    (State w1 (Some (Z.of_nat (length fns))) (used_count s))
    = (Return rs, s2, t2) →
  last rs = Some (Some res) →
  used_identifiers (Rows (ResultSet res)) = Some ids →
  list_to_set ids ⊆@{gset string} list_to_set inventory →
  ∃ s3 t,
    main args fuel s = (Return tt, s3, t)
    ∧ reported_unused t
      ≡ₚ elements (list_to_set inventory ∖ list_to_set ids : gset string)
    ∧ NoDup (reported_unused t)
    ∧ (∀ x, x ∈ reported_unused t ↔ x ∈ inventory ∧ x ∉ ids)
    ∧ StronglySorted lower_le (reported_unused t)
    ∧ (NoDup inventory →
       NoDup ids →
       reported_unused_count t = Some (Z.of_nat (length (reported_unused t)))).
Proof.
  intros inventory Hlist Hfns Hq Hrun Hlast Hids Hsub.
  destruct (main_report _ _ _ _ _ _ _ _ _ _ _ _ _
              Hlist Hfns Hq Hrun Hlast Hids) as (s3 & t & Hmain & Hl & Hc).
  exists s3, t. fold inventory in Hl. rewrite Hl, Hc.
  assert (sort_by_key lower
            (set_iteration (list_to_set inventory ∖ list_to_set ids))
          ≡ₚ elements (list_to_set inventory ∖ list_to_set ids : gset string))
    as Hperm by (rewrite sort_by_key_perm; apply set_iteration_perm).
  split_and!; [done | done | | | apply sort_by_key_sorted |].
  - rewrite Hperm. apply NoDup_elements.
  - intros x. rewrite Hperm, elem_of_elements, elem_of_difference.
    by rewrite !elem_of_list_to_set.
  - intros Hinv Hrows. f_equal. rewrite Hperm.
    change (length (elements ?X)) with (size X).
    rewrite size_difference, !size_list_to_set by done.
    pose proof (subseteq_size _ _ Hsub) as Hle.
    rewrite !size_list_to_set in Hle by done.
    unfold inventory in *. rewrite length_map in *. lia.
Qed.

(** When the used identifiers are not all in the inventory (and none is
    repeated), the count is below the size of the set difference. *)
Lemma main_count_below_difference
    args fuel (s : state W) fns w1 q1 q2 q3 rs s2 t2 res ids :
  let inventory := map FunctionArn fns in
  list_functions (world s) = (Ok {| Functions := fns |}, w1) →
  fns ≠ [] →
  query_strings inventory (table_name args)
    (cloudtrail_s3_bucket_name args) (year args) (region args)
    = Some (q1, q2, q3) →
  run_queries fuel args [q1; q2; q3] []
    (State w1 (Some (Z.of_nat (length fns))) (used_count s))
    = (Return rs, s2, t2) →
  last rs = Some (Some res) →
  used_identifiers (Rows (ResultSet res)) = Some ids →
  ¬ (list_to_set ids ⊆@{gset string} list_to_set inventory) →
  NoDup inventory →
  NoDup ids →
  ∃ s3 t c,
    main args fuel s = (Return tt, s3, t)
    ∧ reported_unused_count t = Some c
    ∧ c < Z.of_nat (size (list_to_set inventory ∖ list_to_set ids : gset string)).
Proof.
  intros inventory Hlist Hfns Hq Hrun Hlast Hids Hsub Hinv Hrows.
  destruct (main_report _ _ _ _ _ _ _ _ _ _ _ _ _
              Hlist Hfns Hq Hrun Hlast Hids) as (s3 & t & Hmain & _ & Hc).
  exists s3, t, (Z.of_nat (length fns) - Z.of_nat (length ids)).
  split_and!; [done | done |].
  rewrite size_difference_alt, size_list_to_set by done.
  assert (list_to_set inventory ∩ list_to_set ids ⊂@{gset string} list_to_set ids)
    as Hstrict.
  { split; [apply intersection_subseteq_r |].
    intros Hback. apply Hsub. intros x Hx.
    by apply Hback, elem_of_intersection in Hx as [? _]. }
  apply subset_size in Hstrict. rewrite size_list_to_set in Hstrict by done.
  unfold inventory in *. rewrite length_map in *. lia.
Qed.

End Main.

(** ** The statements on the scripted worlds *)

Lemma main_empty_inventory_stops_witness :
  let t := [ListFunctions; Print (FoundFunctions 0 "us-east-1"); Print WillExit] in
  main sample_args 3 (initial empty_world)
  = (Raise (SystemExit None), State empty_world (Some 0) None, t)
  ∧ submitted t = []
  ∧ ∀ columns, Print (Rule columns) ∉ t.
Proof.
  apply (main_empty_inventory_stops sample_args 3 (initial empty_world) empty_world).
  reflexivity.
Defined.

Lemma main_empty_inventory_exit_status_witness :
  exit_status (main sample_args 3 (initial empty_world)).1.1 = Some 0.
Proof.
  apply (main_empty_inventory_exit_status sample_args 3 (initial empty_world)
           empty_world).
  reflexivity.
Defined.

(** The exit status on an empty inventory is not a non-zero one. *)
Lemma empty_inventory_exit_status_not_nonzero :
  list_functions empty_world = (Ok {| Functions := [] |}, empty_world)
  ∧ ¬ ∃ code : Z,
        exit_status (main sample_args 3 (initial empty_world)).1.1 = Some code
        ∧ code ≠ 0.
Proof.
  split; [reflexivity |].
  intros (code & Hcode & Hnonzero). vm_compute in Hcode.
  injection Hcode as <-. by apply Hnonzero.
Qed.

Lemma run_queries_continue_after_failed_witness :
  let failed :=
    [StartQueryExecution "create" "default" "s3://staging-us-east-1";
     Print (QueryExecutionIdLine "7f3c");
     GetQueryExecution "7f3c"; Print QueryFailed] in
  run_query 3 "create" "us-east-1" "s3://staging" (initial failing_world)
  = (Return None,
     State (Scripted ["A"; "B"; "C"] ["9a1e"; "c04b"] ["SUCCEEDED"; "SUCCEEDED"]
              [header; cell "A"]) None None,
     failed)
  ∧ ∃ o s2 t2,
      run_queries 3 sample_args ["create"; "alter"; "select"] []
        (initial failing_world)
      = (o, s2,
         failed ++ StartQueryExecution "alter" "default" "s3://staging-us-east-1"
                   :: t2).
Proof.
  apply (run_queries_continue_after_failed 3 sample_args "create" "alter"
           ["select"] [] (initial failing_world) "7f3c"
           (Scripted ["A"; "B"; "C"] ["9a1e"; "c04b"]
              ["FAILED"; "SUCCEEDED"; "SUCCEEDED"] [header; cell "A"])
           []
           (Scripted ["A"; "B"; "C"] ["9a1e"; "c04b"] ["SUCCEEDED"; "SUCCEEDED"]
              [header; cell "A"])).
  - reflexivity.
  - constructor.
  - eapply polls_cons; [reflexivity | constructor].
  - simpl. lia.
Defined.

(** On [failing_world], the create-table job reports FAILED and the run
    goes on all the same: the two other statements are submitted after the
    failure message, and the run ends normally. *)
Lemma failed_statement_does_not_stop_the_run :
  (main sample_args 3 (initial failing_world)).1.1 = Return tt
  ∧ ¬ stops_after_failure (main sample_args 3 (initial failing_world)).2.
Proof.
  split; [vm_compute; reflexivity |].
  intros Hstops.
  set (t := (main sample_args 3 (initial failing_world)).2) in *.
  specialize (Hstops (take 7 t) (drop 8 t)).
  assert (t = take 7 t ++ Print QueryFailed :: drop 8 t) as Ht
    by (vm_compute; reflexivity).
  specialize (Hstops Ht). vm_compute in Hstops. discriminate Hstops.
Qed.

Lemma main_reports_sorted_difference_witness :
  ∃ s3 t,
    main sample_args 3 (initial scenario_world) = (Return tt, s3, t)
    ∧ reported_unused t
      ≡ₚ elements (list_to_set ["A"; "B"; "C"] ∖ list_to_set ["A"] : gset string)
    ∧ NoDup (reported_unused t)
    ∧ (∀ x, x ∈ reported_unused t ↔ x ∈ ["A"; "B"; "C"] ∧ x ∉ ["A"])
    ∧ StronglySorted lower_le (reported_unused t)
    ∧ (NoDup ["A"; "B"; "C"] →
       NoDup ["A"] →
       reported_unused_count t = Some (Z.of_nat (length (reported_unused t)))).
Proof.
  change ["A"; "B"; "C"]
    with (map FunctionArn (Build_FunctionConfiguration <$> ["A"; "B"; "C"])).
  eapply (main_reports_sorted_difference sample_args 3 (initial scenario_world)
            (Build_FunctionConfiguration <$> ["A"; "B"; "C"]) scenario_world
            _ _ _ _ _ _
            {| ResultSet := {| Rows := [header; cell "A"] |} |} ["A"]).
  - reflexivity.
  - discriminate.
  - vm_compute. reflexivity.
  - vm_compute. reflexivity.
  - reflexivity.
  - reflexivity.
  - compute_done.
Defined.

(** On [duplicate_world] the used set is empty, hence within the inventory,
    and the reported count, 2, is not the length of the reported list,
    which holds A once. *)
Lemma repeated_inventory_count_off :
  let t := (main sample_args 3 (initial duplicate_world)).2 in
  (main sample_args 3 (initial duplicate_world)).1.1 = Return tt
  ∧ used_identifiers (result_rows duplicate_world) = Some []
  ∧ list_to_set [] ⊆@{gset string} list_to_set (inventory duplicate_world)
  ∧ reported_unused t = ["A"]
  ∧ reported_unused_count t = Some 2
  ∧ reported_unused_count t ≠ Some (Z.of_nat (length (reported_unused t))).
Proof.
  split_and!; try (vm_compute; reflexivity).
  - intros x Hx. by apply elem_of_empty in Hx.
  - vm_compute. discriminate.
Qed.

(** C2: there are an inventory set and a used set, the latter with an
    identifier that the inventory lacks, for which the reported unused
    count, which is the number of the inventory minus the number of the used
    identifiers, is not the size of the set difference: on
    [stale_log_world] the inventory is A, B, C, the extracted used set is D,
    the report gives 3 as the total and 3 - 1 = 2 as the unused count, and
    the difference has 3 elements. *)
Theorem unused_count_diverges_from_difference :
  ∃ (w : scripted) (ids : list string) (s : state scripted) (t : list event),
    let I : gset string := list_to_set (inventory w) in
    let U : gset string := list_to_set ids in
    let inventory_number := Z.of_nat (size I) in
    let used_number := Z.of_nat (size U) in
    NoDup (inventory w)
    ∧ ¬ (U ⊆ I)
    ∧ main sample_args 3 (initial w) = (Return tt, s, t)
    ∧ retrieve_count s = Some inventory_number
    ∧ used_count s = Some used_number
    ∧ Print (UsedSet U) ∈ t
    ∧ Print (UnusedSummary inventory_number (inventory_number - used_number)) ∈ t
    ∧ reported_unused_count t = Some (inventory_number - used_number)
    ∧ inventory_number - used_number ≠ Z.of_nat (size (I ∖ U)).
Proof.
  exists stale_log_world, ["D"].
  destruct (main sample_args 3 (initial stale_log_world)) as [[o s] t] eqn:Hmain.
  exists s, t. intros I U inventory_number used_number.
  vm_compute in Hmain. injection Hmain as <- <- <-.
  split_and!.
  - compute_done.
  - intros Hsub. specialize (Hsub "D").
    assert ("D" ∈ U) as HD by (apply elem_of_list_to_set; by left).
    apply Hsub, elem_of_list_to_set in HD. simpl in HD.
    repeat (apply elem_of_cons in HD as [HD | HD]; [discriminate |]).
    by apply elem_of_nil in HD.
  - reflexivity.
  - vm_compute. reflexivity.
  - vm_compute. reflexivity.
  - do 24 apply list_elem_of_further. vm_compute. apply list_elem_of_here.
  - do 25 apply list_elem_of_further. vm_compute. apply list_elem_of_here.
  - vm_compute. reflexivity.
  - vm_compute. discriminate.
Qed.

Lemma main_usage_query_failed_witness :
  (main sample_args 3 (initial usage_failed_world)).1.1 = Raise TypeError
  ∧ (main sample_args 3 (initial usage_failed_world)).1.2
    = State (Scripted ["A"; "B"; "C"] [] [] [header; cell "A"]) (Some 3) None
  ∧ exit_status (main sample_args 3 (initial usage_failed_world)).1.1 = Some 1.
Proof.
  opose proof*
    (main_usage_query_failed sample_args 3 (initial usage_failed_world)
       (Build_FunctionConfiguration <$> ["A"; "B"; "C"]) usage_failed_world
       _ _ _ _ _ _ "c04b" _ ["RUNNING"]
       (Scripted ["A"; "B"; "C"] [] [] [header; cell "A"]))
    as (Hquery & Hmain & Hexit).
  - reflexivity.
  - discriminate.
  - vm_compute. reflexivity.
  - vm_compute. reflexivity.
  - reflexivity.
  - repeat constructor; discriminate.
  - eapply polls_cons; [reflexivity |].
    eapply polls_cons; [reflexivity | constructor].
  - simpl. lia.
  - rewrite Hmain. split_and!; [reflexivity | reflexivity | exact Hexit].
Defined.

(** * Further properties *)

(** ** Strings and the statements *)

Lemma substring_prefix (a b : string) :
  String.substring 0 (String.length a) (a +:+ b) = a.
Proof.
  induction a as [|c a IH]; simpl.
  - by destruct b.
  - change (String c a +:+ b) with (String c (a +:+ b)). by rewrite IH.
Qed.

Lemma length_append (a b : string) :
  String.length (a +:+ b) = (String.length a + String.length b)%nat.
Proof.
  induction a as [|c a IH]; [done |].
  change (String c a +:+ b) with (String c (a +:+ b)). simpl. by rewrite IH.
Qed.

(** [str(l)[1:-1]] is the list of the [repr]s without the brackets. *)
Lemma slice_str_list l : slice_1_m1 (str_list l) = join ", " (map repr_str l).
Proof.
  unfold slice_1_m1, str_list.
  set (body := join ", " (map repr_str l)).
  change ("[" +:+ body +:+ "]") with (String "[" (body +:+ "]")).
  simpl String.length. rewrite length_append. simpl String.length.
  replace (S (String.length body + 1) - 2)%nat with (String.length body) by lia.
  simpl. apply substring_prefix.
Qed.

Lemma repr_body_plain quote s :
  str_forallb (plain_char quote) s = true → repr_body quote s = s.
Proof.
  induction s as [|c s IH]; [done |]. simpl.
  intros [Hc Hs]%andb_true_iff. rewrite (IH Hs).
  unfold plain_char in Hc.
  apply andb_true_iff in Hc as [[Hp Hq]%andb_true_iff Hb].
  apply negb_true_iff in Hq, Hb.
  unfold repr_char. rewrite Hq, Hb, Hp. simpl.
  unfold printable in Hp.
  destruct (N.eqb_spec (N_of_ascii c) 9) as [E|_];
    [rewrite E in Hp; discriminate |].
  destruct (N.eqb_spec (N_of_ascii c) 10) as [E|_];
    [rewrite E in Hp; discriminate |].
  destruct (N.eqb_spec (N_of_ascii c) 13) as [E|_];
    [rewrite E in Hp; discriminate |].
  reflexivity.
Qed.

Lemma str_contains_plain quote s :
  str_forallb (plain_char quote) s = true → str_contains quote s = false.
Proof.
  induction s as [|c s IH]; [done |]. simpl.
  intros [Hc Hs]%andb_true_iff. rewrite (IH Hs).
  unfold plain_char in Hc.
  apply andb_true_iff in Hc as [[_ Hq]%andb_true_iff _].
  apply negb_true_iff in Hq. rewrite Ascii.eqb_sym. by rewrite Hq.
Qed.

(** An identifier made of printable characters other than the single
    quote and the backslash is rendered between single quotes, unchanged. *)
Lemma repr_str_plain s :
  str_forallb (plain_char sq_char) s = true →
  repr_str s = quoted sq_char s.
Proof.
  intros Hs. unfold repr_str, quoted.
  rewrite (str_contains_plain _ _ Hs). simpl.
  by rewrite (repr_body_plain _ _ Hs).
Qed.

Lemma format_create_table_body table_name location :
  format create_table_query_template [table_name; location] []
  = Some ("CREATE EXTERNAL TABLE " +:+ table_name +:+ create_table_body +:+
          location +:+ "';").
Proof. vm_compute. reflexivity. Qed.

Lemma format_last_run_in_list table_name y function_arns_csv :
  format last_run_query_template [table_name; y]
    [("function_arns", function_arns_csv)]
  = Some ("
    select json_extract_scalar(requestparameters, '$.functionName') as function_name, Max (eventtime) as " +:+
      dq +:+ "Last Run" +:+ dq +:+ "
    from " +:+ table_name +:+ "
    where eventname='Invoke'
    and year='" +:+ y +:+ "'
    and from_iso8601_timestamp(eventtime) > current_timestamp - interval '1' month
    and json_extract_scalar(requestparameters, '$.functionName') in (" +:+
      function_arns_csv +:+ ")
    group by json_extract_scalar(requestparameters, '$.functionName')").
Proof. vm_compute. reflexivity. Qed.

Lemma query_strings_parts function_arns table_name location year region q1 q2 q3 :
  query_strings function_arns table_name location year region = Some (q1, q2, q3) →
  format create_table_query_template [table_name; location] [] = Some q1
  ∧ format last_run_query_template [table_name; str_year year]
      [("function_arns", slice_1_m1 (str_list function_arns))] = Some q3.
Proof.
  unfold query_strings. intros Hq.
  destruct (format create_table_query_template _ _); [| done].
  destruct (format create_partiton_query_template _ _); [| done].
  destruct (format last_run_query_template _ _); [| done].
  simpl in Hq. split; congruence.
Qed.

Section Statements_built.
Context {W : Type} {services : Services W}.

(** X1: the first statement of the Query Template Builder is the
    create-table statement: the table name right after CREATE EXTERNAL
    TABLE, the CloudTrail location as the LOCATION at the end, and between
    the two a text that has no replacement field and does not depend on the
    inputs. *)
Theorem build_query_strings_create_table
    function_arns table_name location year region (s : state W) :
  (∃ create_partition_query last_run_query,
     build_query_strings function_arns table_name location year region s
     = (Return
          ("CREATE EXTERNAL TABLE " +:+ table_name +:+ create_table_body +:+
           location +:+ "';",
           create_partition_query, last_run_query),
        s, [Print (Rule (fst (get_terminal_size (world s))))]))
  ∧ str_contains "{" create_table_body = false
  ∧ str_contains "}" create_table_body = false.
Proof.
  split; [| by vm_compute].
  destruct (query_strings_some function_arns table_name location year region)
    as [[[q1 q2] q3] Hq].
  exists q2, q3. rewrite (build_query_strings_run _ _ _ _ _ _ _ Hq).
  apply query_strings_parts in Hq as [Hq1 _].
  rewrite format_create_table_body in Hq1. by injection Hq1 as <-.
Qed.

(** X2: the third statement of the Query Template Builder selects from the
    given table the Invoke events of the given year and of the last month
    whose function name is in a list: the [repr] of each identifier of the
    inventory, in the order of the list, separated by a comma and a space.
    For an empty inventory the list between the parentheses is empty. *)
Theorem build_query_strings_last_run
    function_arns table_name location year region (s : state W) :
  ∃ create_table_query create_partition_query,
    build_query_strings function_arns table_name location year region s
    = (Return
         (create_table_query, create_partition_query,
          "
    select json_extract_scalar(requestparameters, '$.functionName') as function_name, Max (eventtime) as " +:+
            dq +:+ "Last Run" +:+ dq +:+ "
    from " +:+ table_name +:+ "
    where eventname='Invoke'
    and year='" +:+ str_year year +:+ "'
    and from_iso8601_timestamp(eventtime) > current_timestamp - interval '1' month
    and json_extract_scalar(requestparameters, '$.functionName') in (" +:+
            join ", " (map repr_str function_arns) +:+ ")
    group by json_extract_scalar(requestparameters, '$.functionName')"),
       s, [Print (Rule (fst (get_terminal_size (world s))))]).
Proof.
  destruct (query_strings_some function_arns table_name location year region)
    as [[[q1 q2] q3] Hq].
  exists q1, q2. rewrite (build_query_strings_run _ _ _ _ _ _ _ Hq).
  apply query_strings_parts in Hq as [_ Hq3].
  rewrite format_last_run_in_list, slice_str_list in Hq3.
  by injection Hq3 as <-.
Qed.

End Statements_built.

(** X3: for an inventory of identifiers made of printable characters other
    than the single quote and the backslash (every ARN is one), the text
    that goes between the parentheses of the IN-list is the identifiers,
    each between single quotes and unchanged, separated by a comma and a
    space. *)
Theorem function_arns_csv_plain function_arns :
  Forall (λ a, str_forallb (plain_char sq_char) a = true) function_arns →
  slice_1_m1 (str_list function_arns)
  = join ", " (map (quoted sq_char) function_arns).
Proof.
  intros Hplain. rewrite slice_str_list. f_equal.
  induction Hplain as [|a l Ha Hl IH]; [done |]. simpl.
  by rewrite IH, (repr_str_plain _ Ha).
Qed.

Lemma function_arns_csv_plain_witness :
  slice_1_m1
    (str_list ["arn:aws:lambda:us-east-1:123456789012:function:my_Func-1";
               "arn:aws:lambda:us-east-1:123456789012:function:other"])
  = join ", "
      (map (quoted sq_char)
         ["arn:aws:lambda:us-east-1:123456789012:function:my_Func-1";
          "arn:aws:lambda:us-east-1:123456789012:function:other"]).
Proof.
  apply function_arns_csv_plain. repeat constructor.
Defined.

(** X4: an identifier that has a single quote and is otherwise made of
    printable characters other than the double quote and the backslash is
    rendered between double quotes, the single quote kept as it is: in the
    IN-list it is not a single-quoted literal. *)
Theorem repr_str_single_quote s :
  str_contains sq_char s = true →
  str_forallb (plain_char dq_char) s = true →
  repr_str s = quoted dq_char s.
Proof.
  intros Hsq Hs. unfold repr_str, quoted.
  rewrite Hsq, (str_contains_plain _ _ Hs). simpl.
  by rewrite (repr_body_plain _ _ Hs).
Qed.

Lemma repr_str_single_quote_witness :
  repr_str (String "o" (String sq_char "k"))
  = quoted dq_char (String "o" (String sq_char "k")).
Proof. apply repr_str_single_quote; reflexivity. Defined.

(** ** The polled id *)

(** X5: [lstrip] splits its argument into a prefix made of the characters
    to strip and the result, which does not begin with one of them. *)
Theorem lstrip_strips chars s :
  ∃ prefix,
    s = prefix +:+ lstrip chars s
    ∧ str_forallb (λ c, str_contains c chars) prefix = true
    ∧ starts_with_any chars (lstrip chars s) = false.
Proof.
  induction s as [|c s (prefix & Hs & Hp & Hstart)].
  - by exists EmptyString.
  - simpl. destruct (str_contains c chars) eqn:Hc.
    + exists (String c prefix). split_and!; [| by simpl; rewrite Hc | done].
      change (String c prefix +:+ lstrip chars s)
        with (String c (prefix +:+ lstrip chars s)).
      by rewrite <- Hs.
    + exists EmptyString. split_and!; [done | done |]. simpl. exact Hc.
Qed.

Lemma lstrip_uuid i : str_forallb uuid_char i = true → lstrip "ID" i = i.
Proof.
  intros Hi. apply lstrip_id_iff.
  destruct i as [|c i]; [done |]. simpl in *.
  apply andb_true_iff in Hi as [Hc _].
  destruct c as [[] [] [] [] [] [] [] []]; try discriminate Hc; reflexivity.
Qed.

Section Polled.
Context {W : Type} {services : Services W}.

Lemma run_query_polled fuel query region bucket (s : state W) i w0 :
  start_query_execution query "default" (bucket +:+ "-" +:+ region) (world s)
    = (Ok i, w0) →
  Forall (λ p, p = lstrip "ID" i) (polled (run_query fuel query region bucket s).2).
Proof.
  intros Hstart. rewrite (run_query_start _ _ _ _ _ _ _ Hstart).
  pose proof (run_query_poll_polled i fuel None
                (State w0 (retrieve_count s) (used_count s))) as Hall.
  destruct (run_query_poll fuel None i _) as [[[[]| |] s1] t]; simpl in *;
    try done.
  destruct (get_query_results i (world s1)) as [r w2]; simpl.
  unfold polled in *. rewrite omap_app. simpl. by rewrite app_nil_r.
Qed.

(** X6: when the execution id returned at submission is made of lowercase
    hexadecimal digits and hyphens, as the ids of the engine are, every
    status request of the executor carries that very id. *)
Theorem run_query_polls_uuid_id fuel query region bucket (s : state W) i w0 :
  start_query_execution query "default" (bucket +:+ "-" +:+ region) (world s)
    = (Ok i, w0) →
  str_forallb uuid_char i = true →
  Forall (λ p, p = i) (polled (run_query fuel query region bucket s).2).
Proof.
  intros Hstart Hi.
  pose proof (run_query_polled fuel query region bucket s i w0 Hstart) as Hall.
  by rewrite (lstrip_uuid i Hi) in Hall.
Qed.

End Polled.

Lemma run_query_polls_uuid_id_witness :
  Forall (λ p, p = "7f3c")
    (polled (run_query 5 "select 1" "us-east-1" "s3://staging"
               (initial scenario_world)).2).
Proof.
  apply (run_query_polls_uuid_id 5 "select 1" "us-east-1" "s3://staging"
           (initial scenario_world) "7f3c"
           (Scripted ["A"; "B"; "C"] ["9a1e"; "c04b"]
              ["SUCCEEDED"; "SUCCEEDED"; "RUNNING"; "RUNNING"; "SUCCEEDED"]
              [header; cell "A"]));
    reflexivity.
Defined.

(** ** The inventory fetch and the extraction *)

Lemma size_list_to_set_le (l : list string) :
  (size (list_to_set l : gset string) ≤ length l)%nat
  ∧ (size (list_to_set l : gset string) = length l → NoDup l).
Proof.
  induction l as [|x l [IH1 IH2]].
  - change (list_to_set [] : gset string) with (∅ : gset string).
    rewrite size_empty. split; [simpl; lia | constructor].
  - change (list_to_set (x :: l) : gset string)
      with ({[x]} ∪ list_to_set l : gset string).
    simpl length.
    destruct (decide (x ∈ l)) as [Hin | Hout].
    + assert ({[x]} ∪ list_to_set l = (list_to_set l : gset string)) as ->.
      { apply set_eq. intros y.
        rewrite elem_of_union, elem_of_singleton, elem_of_list_to_set.
        split; [intros [-> | ?]; done | by right]. }
      split; [lia | intros; lia].
    + rewrite size_union, size_singleton.
      * split; [lia |]. intros Heq. constructor; [done |]. apply IH2. lia.
      * intros y Hy%elem_of_singleton Hl%elem_of_list_to_set. by subst.
Qed.

Section Extraction.
Context {W : Type} {services : Services W}.

(** The exception of a row that has no identifier in column 0. *)
Lemma used_loop_raises good : ∀ ids bad rest (acc : gset string) n (s : state W),
  used_count s = Some n →
  mapM row_arn good = Some ids →
  row_arn bad = None →
  for_each (good ++ bad :: rest) acc
    (λ set_of_functions_used row,
       count ← get_used_count;
       set_used_count (count + 1);;
       cell ← of_option IndexError (head (Data row));
       function_arn ← of_option KeyError (VarCharValue cell);
       ret ({[function_arn]} ∪ set_of_functions_used)) s
  = (Raise (match Data bad with [] => IndexError | _ => KeyError end),
     State (world s) (retrieve_count s)
       (Some (n + Z.of_nat (length ids) + 1)), []).
Proof.
  induction good as [|row good IH]; intros ids bad rest acc n s Hn Hids Hbad.
  - injection Hids as <-. simpl.
    rewrite bind_run.
    rewrite (bind_run get_used_count). unfold get_used_count at 1.
    rewrite Hn. simpl. rewrite Z.add_0_r.
    unfold row_arn in Hbad.
    destruct (Data bad) as [|c cells]; simpl in *; [reflexivity |].
    do 2 (rewrite bind_run; simpl). by rewrite Hbad.
  - simpl in Hids.
    destruct (row_arn row) as [arn|] eqn:Hrow; [| done]. simpl in Hids.
    destruct (mapM row_arn good) as [ids'|] eqn:Hrest; [| done].
    injection Hids as <-.
    unfold row_arn in Hrow.
    destruct (head (Data row)) as [c|] eqn:Hhead; [| done]. simpl in Hrow.
    simpl.
    rewrite bind_run.
    rewrite (bind_run get_used_count). unfold get_used_count at 1.
    rewrite Hn. simpl. rewrite Hhead. simpl.
    do 2 (rewrite bind_run; simpl). rewrite Hrow.
    repeat (rewrite bind_run; simpl).
    rewrite (IH ids' bad rest _ (n + 1)) by done. simpl.
    by replace (n + 1 + Z.of_nat (length ids') + 1)
      with (n + Z.of_nat (S (length ids')) + 1) by lia.
Qed.

(** X7: for a non-empty inventory, [retrieve_function_arns] returns the
    ARNs of the response, in its order, after one request to the service and
    one printed line; the counter it leaves is their number, and the other
    counter is untouched. *)
Theorem retrieve_function_arns_inventory region (s : state W) fns w1 :
  list_functions (world s) = (Ok {| Functions := fns |}, w1) →
  fns ≠ [] →
  ∃ function_arns s1,
    retrieve_function_arns region s
    = (Return function_arns, s1,
       [ListFunctions;
        Print (FoundFunctions (Z.of_nat (length function_arns)) region)])
    ∧ function_arns = map FunctionArn fns
    ∧ world s1 = w1
    ∧ retrieve_count s1 = Some (Z.of_nat (length function_arns))
    ∧ used_count s1 = used_count s.
Proof.
  intros Hlist Hfns. eexists _, _.
  rewrite (retrieve_function_arns_some region s fns w1 Hlist Hfns).
  rewrite length_map. by split_and!.
Qed.

(** X8: whatever the header row is, when every row after it has an
    identifier in column 0, the extraction returns the set of these
    identifiers and leaves the number of these rows in its counter, without
    any request or output; the world and the other counter are as before. *)
Theorem get_set_of_function_arns_from_result_set_rows
    header_row rows ids (s : state W) :
  mapM row_arn rows = Some ids →
  get_set_of_function_arns_from_result_set (header_row :: rows) s
  = (Return (list_to_set ids),
     State (world s) (retrieve_count s) (Some (Z.of_nat (length rows))), []).
Proof.
  intros Hids.
  rewrite (get_set_of_function_arns_from_result_set_run _ ids) by done.
  apply mapM_Some_1, Forall2_length in Hids. by rewrite Hids.
Qed.

(** X9: the first row after the header that has no identifier in column 0
    ends the extraction with an exception: [IndexError] when the row has no
    cell, [KeyError] when its first cell has no [VarCharValue]; the counter
    then holds the position of that row among the rows after the header. *)
Theorem get_set_of_function_arns_from_result_set_raises
    header_row good ids bad rest (s : state W) :
  mapM row_arn good = Some ids →
  row_arn bad = None →
  get_set_of_function_arns_from_result_set (header_row :: good ++ bad :: rest) s
  = (Raise (match Data bad with [] => IndexError | _ => KeyError end),
     State (world s) (retrieve_count s)
       (Some (Z.of_nat (length good) + 1)), []).
Proof.
  intros Hids Hbad. unfold get_set_of_function_arns_from_result_set.
  rewrite bind_run. simpl.
  rewrite (used_loop_raises good ids bad rest ∅ 0) by done. simpl.
  apply mapM_Some_1, Forall2_length in Hids. by rewrite Hids.
Qed.

(** X10: the counter of the extraction counts rows, not identifiers: the
    returned set has at most as many elements as the counter says, and
    exactly as many when, and only when, no identifier is in two rows. *)
Theorem get_set_of_function_arns_from_result_set_size result_set ids (s : state W) :
  used_identifiers result_set = Some ids →
  ∃ set_of_functions_used s1 count,
    get_set_of_function_arns_from_result_set result_set s
    = (Return set_of_functions_used, s1, [])
    ∧ used_count s1 = Some count
    ∧ Z.of_nat (size set_of_functions_used) ≤ count
    ∧ (Z.of_nat (size set_of_functions_used) = count ↔ NoDup ids).
Proof.
  intros Hids. eexists _, _, _.
  rewrite (get_set_of_function_arns_from_result_set_run _ ids) by done.
  destruct (size_list_to_set_le ids) as [Hle Hnodup].
  split_and!; [reflexivity | reflexivity | lia |].
  split; [intros Heq; apply Hnodup; lia |].
  intros Hnd. by rewrite size_list_to_set.
Qed.

End Extraction.

Lemma retrieve_function_arns_inventory_witness :
  ∃ function_arns s1,
    retrieve_function_arns "us-east-1" (initial scenario_world)
    = (Return function_arns, s1,
       [ListFunctions;
        Print (FoundFunctions (Z.of_nat (length function_arns)) "us-east-1")])
    ∧ function_arns
      = map FunctionArn (Build_FunctionConfiguration <$> ["A"; "B"; "C"])
    ∧ world s1 = scenario_world
    ∧ retrieve_count s1 = Some (Z.of_nat (length function_arns))
    ∧ used_count s1 = used_count (initial scenario_world).
Proof.
  apply (retrieve_function_arns_inventory "us-east-1" (initial scenario_world)
           (Build_FunctionConfiguration <$> ["A"; "B"; "C"]) scenario_world);
    [reflexivity | discriminate].
Defined.

Lemma get_set_of_function_arns_from_result_set_rows_witness :
  get_set_of_function_arns_from_result_set
    ({| Data := [] |} :: [cell "A"; cell "B"; cell "A"]) (initial scenario_world)
  = (Return (list_to_set ["A"; "B"; "A"]),
     State scenario_world None (Some 3), []).
Proof.
  apply (get_set_of_function_arns_from_result_set_rows
           {| Data := [] |} [cell "A"; cell "B"; cell "A"] ["A"; "B"; "A"]
           (initial scenario_world)).
  reflexivity.
Defined.

Lemma get_set_of_function_arns_from_result_set_raises_witness :
  get_set_of_function_arns_from_result_set
    (header :: [cell "A"] ++ {| Data := [{| VarCharValue := None |}] |} :: [cell "B"])
    (initial scenario_world)
  = (Raise KeyError, State scenario_world None (Some 2), []).
Proof.
  apply (get_set_of_function_arns_from_result_set_raises
           header [cell "A"] ["A"] {| Data := [{| VarCharValue := None |}] |}
           [cell "B"] (initial scenario_world));
    reflexivity.
Defined.

Lemma get_set_of_function_arns_from_result_set_size_witness :
  ∃ set_of_functions_used s1 count,
    get_set_of_function_arns_from_result_set [header; cell "A"; cell "A"]
      (initial scenario_world)
    = (Return set_of_functions_used, s1, [])
    ∧ used_count s1 = Some count
    ∧ Z.of_nat (size set_of_functions_used) ≤ count
    ∧ (Z.of_nat (size set_of_functions_used) = count ↔ NoDup ["A"; "A"]).
Proof.
  apply (get_set_of_function_arns_from_result_set_size
           [header; cell "A"; cell "A"] ["A"; "A"] (initial scenario_world)).
  reflexivity.
Defined.

(** ** The executor, whatever the engine does *)

Lemma polling_events_trace t :
  Forall polling_event t → submitted t = [] ∧ fetched t = [].
Proof.
  intros Ht. unfold submitted, fetched.
  induction Ht as [|e t He Ht [IH1 IH2]]; [done |].
  destruct e as [| | | | |[]]; simpl in *; try done.
Qed.

Lemma slept_app t1 t2 : slept (t1 ++ t2) = slept t1 + slept t2.
Proof.
  unfold slept. rewrite omap_app, foldr_app.
  induction (omap _ t1) as [|n l IH]; simpl; [lia |]. rewrite IH. lia.
Qed.

Lemma slept_poll_events i sts :
  slept (poll_events i sts) = 5 * Z.of_nat (length sts).
Proof.
  induction sts as [|st sts IH]; [done |].
  change (poll_events i (st :: sts))
    with ([GetQueryExecution i; Print Running; Sleep 5] ++ poll_events i sts).
  rewrite slept_app, IH. unfold slept. simpl length. simpl. lia.
Qed.

Lemma polled_poll_events i sts :
  polled (poll_events i sts) = replicate (length sts) i
  ∧ fetched (poll_events i sts) = [].
Proof.
  induction sts as [|st sts [IH1 IH2]]; [done |].
  change (poll_events i (st :: sts))
    with ([GetQueryExecution i; Print Running; Sleep 5] ++ poll_events i sts).
  unfold polled, fetched in *. rewrite !omap_app, IH1, IH2. done.
Qed.

Section Executor_more.
Context {W : Type} {services : Services W}.

Lemma run_query_poll_polling i : ∀ fuel st0 (s : state W),
  Forall polling_event (run_query_poll fuel st0 i s).2.
Proof.
  induction fuel as [|fuel IH]; intros st0 s; simpl;
    (case_decide; [by constructor |]); [by constructor |].
  rewrite bind_run. unfold call.
  destruct (get_query_execution _ _) as [[st|e] w1]; simpl;
    [| by repeat constructor].
  case_decide; [by repeat constructor |].
  repeat (rewrite bind_run; simpl).
  specialize (IH (Some st) (State w1 (retrieve_count s) (used_count s))).
  destruct (run_query_poll fuel (Some st) i _) as [[[] ?] t]; simpl in *;
    by repeat constructor.
Qed.

(** While the statuses are pending, the loop uses one unit of fuel per
    status request. *)
Lemma run_query_poll_pending i sts : ∀ st0 (s : state W) w',
  st0 ≠ Some "SUCCEEDED" →
  Forall pending sts →
  polls (lstrip "ID" i) (world s) sts w' →
  run_query_poll (length sts) st0 i s
  = (OutOfFuel, State w' (retrieve_count s) (used_count s),
     poll_events (lstrip "ID" i) sts).
Proof.
  induction sts as [|st sts IH]; intros st0 s w' Hst0 Hpend Hpolls;
    inversion Hpolls as [|? w1 ? ? ? Hpoll Hrest]; subst.
  - simpl. rewrite decide_False by done. by destruct s.
  - apply Forall_cons in Hpend as [[Hs Hf] Hpend]. simpl length.
    rewrite (run_query_poll_step _ _ _ _ _ _ Hst0 Hpoll).
    rewrite decide_False by done.
    rewrite (IH (Some st) _ w'); [done | congruence | done | done].
Qed.

(** A status request that raises, after pending statuses. *)
Lemma run_query_poll_raises i sts : ∀ fuel st0 (s : state W) w1 e w2,
  st0 ≠ Some "SUCCEEDED" →
  Forall pending sts →
  polls (lstrip "ID" i) (world s) sts w1 →
  get_query_execution (lstrip "ID" i) w1 = (Error e, w2) →
  (length sts < fuel)%nat →
  run_query_poll fuel st0 i s
  = (Raise e, State w2 (retrieve_count s) (used_count s),
     poll_events (lstrip "ID" i) sts ++ [GetQueryExecution (lstrip "ID" i)]).
Proof.
  induction sts as [|st sts IH]; intros fuel st0 s w1 e w2 Hst0 Hpend Hpolls Herr Hfuel;
    (destruct fuel as [|fuel]; [simpl in Hfuel; lia |]);
    inversion Hpolls as [|? w0 ? ? ? Hpoll Hrest]; subst.
  - simpl. rewrite decide_False by done.
    by rewrite (bind_raise _ _ _ _ _ _ (call_run _ _ _ _ _ Herr)).
  - apply Forall_cons in Hpend as [[Hs Hf] Hpend].
    rewrite (run_query_poll_step _ _ _ _ _ _ Hst0 Hpoll).
    rewrite decide_False by done.
    rewrite (IH fuel (Some st) _ w1 e w2); [done | congruence | done | done | done |].
    simpl in Hfuel. lia.
Qed.

(** X11: as long as the statuses are neither SUCCEEDED nor FAILED (QUEUED,
    RUNNING, but CANCELLED as well), the executor goes on polling: after any
    number of such statuses it has neither returned nor raised, it has made
    one status request per status and no fetch. *)
Theorem run_query_keeps_polling query region bucket (s : state W) i w0 sts w' :
  start_query_execution query "default" (bucket +:+ "-" +:+ region) (world s)
    = (Ok i, w0) →
  Forall pending sts →
  polls (lstrip "ID" i) w0 sts w' →
  let t := [StartQueryExecution query "default" (bucket +:+ "-" +:+ region);
            Print (QueryExecutionIdLine i)] ++ poll_events (lstrip "ID" i) sts in
  run_query (length sts) query region bucket s
  = (OutOfFuel, State w' (retrieve_count s) (used_count s), t)
  ∧ length (polled t) = length sts
  ∧ fetched t = [].
Proof.
  intros Hstart Hpend Hpolls t.
  rewrite (run_query_start _ _ _ _ _ _ _ Hstart).
  rewrite (run_query_poll_pending i sts None _ w') by done.
  destruct (polled_poll_events (lstrip "ID" i) sts) as [Hpolled Hfetched].
  split_and!; [done | |].
  - subst t. unfold polled in *. rewrite omap_app, Hpolled. simpl.
    apply length_replicate.
  - subst t. unfold fetched in *. by rewrite omap_app, Hfetched.
Qed.

(** X12: when a status request raises after pending statuses, the executor
    raises the same exception at once: no further request, no fetch, no
    failure message. *)
Theorem run_query_status_request_raises
    fuel query region bucket (s : state W) i w0 sts w1 e w2 :
  start_query_execution query "default" (bucket +:+ "-" +:+ region) (world s)
    = (Ok i, w0) →
  Forall pending sts →
  polls (lstrip "ID" i) w0 sts w1 →
  get_query_execution (lstrip "ID" i) w1 = (Error e, w2) →
  (length sts < fuel)%nat →
  run_query fuel query region bucket s
  = (Raise e, State w2 (retrieve_count s) (used_count s),
     [StartQueryExecution query "default" (bucket +:+ "-" +:+ region);
      Print (QueryExecutionIdLine i)] ++
     poll_events (lstrip "ID" i) sts ++ [GetQueryExecution (lstrip "ID" i)]).
Proof.
  intros Hstart Hpend Hpolls Herr Hfuel.
  rewrite (run_query_start _ _ _ _ _ _ _ Hstart).
  by rewrite (run_query_poll_raises i sts fuel None _ w1 e w2).
Qed.

(** X13: the executor waits five seconds after every status that is not
    FAILED, the final SUCCEEDED included: a job that is SUCCEEDED at poll
    number n + 1 has its results fetched after 5 (n + 1) seconds of sleep,
    and a job that is FAILED at poll number n + 1 is given up after 5 n
    seconds. *)
Theorem run_query_slept fuel query region bucket (s : state W) i w0 sts final w' :
  start_query_execution query "default" (bucket +:+ "-" +:+ region) (world s)
    = (Ok i, w0) →
  Forall pending sts →
  final = "SUCCEEDED" ∨ final = "FAILED" →
  polls (lstrip "ID" i) w0 (sts ++ [final]) w' →
  (length sts < fuel)%nat →
  slept (run_query fuel query region bucket s).2
  = 5 * (Z.of_nat (length sts) + (if decide (final = "SUCCEEDED") then 1 else 0)).
Proof.
  intros Hstart Hpend [-> | ->] Hpolls Hfuel.
  - destruct (get_query_results i w') as [r w2] eqn:Hres.
    rewrite (run_query_succeeded _ _ _ _ _ _ _ _ _ _ _
               Hstart Hpend Hpolls Hres Hfuel).
    cbn [snd]. rewrite !slept_app, slept_poll_events, length_app.
    rewrite decide_True by done. unfold slept. simpl. lia.
  - rewrite (run_query_failed _ _ _ _ _ _ _ _ _
               Hstart Hpend Hpolls Hfuel).
    cbn [snd]. rewrite !slept_app, slept_poll_events.
    rewrite decide_False by done. unfold slept. simpl. lia.
Qed.

(** X14: whatever the engine answers and however long the executor runs,
    the results are requested at most once, for the id returned at
    submission (not the stripped one), and as the last request: a run that
    returns a result has made exactly that one fetch, a run that returns
    none or is still polling has made none. *)
Theorem run_query_fetches_last fuel query region bucket (s : state W) i w0 :
  start_query_execution query "default" (bucket +:+ "-" +:+ region) (world s)
    = (Ok i, w0) →
  let '(o, _, t) := run_query fuel query region bucket s in
  let fetch_last :=
    ∃ before, t = before ++ [GetQueryResults i] ∧ fetched before = [] in
  submitted t = [query]
  ∧ match o with
    | Return (Some _) => fetch_last
    | Return None | OutOfFuel => fetched t = []
    | Raise _ => fetched t = [] ∨ fetch_last
    end.
Proof.
  intros Hstart. rewrite (run_query_start _ _ _ _ _ _ _ Hstart).
  pose proof (run_query_poll_polling i fuel None
                (State w0 (retrieve_count s) (used_count s))) as Hpoll.
  destruct (run_query_poll fuel None i _) as [[o s1] t]. simpl in Hpoll.
  apply polling_events_trace in Hpoll as [Hsub Hfetch].
  assert (∀ tail, submitted tail = [] →
            submitted
              ([StartQueryExecution query "default" (bucket +:+ "-" +:+ region);
                Print (QueryExecutionIdLine i)] ++ t ++ tail) = [query])
    as Hsubmitted.
  { intros tail Htail. unfold submitted in *. simpl.
    by rewrite omap_app, Hsub, Htail. }
  assert (fetched
            ([StartQueryExecution query "default" (bucket +:+ "-" +:+ region);
              Print (QueryExecutionIdLine i)] ++ t) = []) as Hfront
    by (unfold fetched in *; simpl; exact Hfetch).
  destruct o as [[]| |]; simpl.
  - destruct (get_query_results i (world s1)) as [[res|e] w2]; simpl;
      (split; [by apply Hsubmitted |]); [| right];
      (exists ([StartQueryExecution query "default" (bucket +:+ "-" +:+ region);
                Print (QueryExecutionIdLine i)] ++ t);
       split; [reflexivity | exact Hfront]).
  - split; [| done]. rewrite <- (app_nil_r t). by apply Hsubmitted.
  - split; [| by left]. rewrite <- (app_nil_r t). by apply Hsubmitted.
  - split; [| done]. rewrite <- (app_nil_r t). by apply Hsubmitted.
Qed.

End Executor_more.

Lemma run_query_keeps_polling_witness :
  let t :=
    [StartQueryExecution "select 1" "default" "s3://staging-us-east-1";
     Print (QueryExecutionIdLine "7f3c")] ++
    poll_events "7f3c" ["QUEUED"; "RUNNING"; "CANCELLED"; "CANCELLED"] in
  run_query 4 "select 1" "us-east-1" "s3://staging" (initial cancelled_world)
  = (OutOfFuel, State (Scripted ["A"] [] [] [header; cell "A"]) None None, t)
  ∧ length (polled t) = 4%nat
  ∧ fetched t = [].
Proof.
  apply (run_query_keeps_polling "select 1" "us-east-1" "s3://staging"
           (initial cancelled_world) "7f3c"
           (Scripted ["A"] [] ["QUEUED"; "RUNNING"; "CANCELLED"; "CANCELLED"]
              [header; cell "A"])
           ["QUEUED"; "RUNNING"; "CANCELLED"; "CANCELLED"]
           (Scripted ["A"] [] [] [header; cell "A"])).
  - reflexivity.
  - repeat (constructor; [split; discriminate |]). constructor.
  - repeat (eapply polls_cons; [reflexivity |]). constructor.
Defined.

Lemma run_query_status_request_raises_witness :
  run_query 5 "select 1" "us-east-1" "s3://staging" (initial throttled_world)
  = (Raise (ClientError "ThrottlingException"),
     State (Answers three_functions [Ok "9a1e"; Ok "c04b"] [] [header; cell "A"])
       None None,
     [StartQueryExecution "select 1" "default" "s3://staging-us-east-1";
      Print (QueryExecutionIdLine "7f3c")] ++
     poll_events "7f3c" ["RUNNING"] ++ [GetQueryExecution "7f3c"]).
Proof.
  apply (run_query_status_request_raises 5 "select 1" "us-east-1" "s3://staging"
           (initial throttled_world) "7f3c"
           (Answers three_functions [Ok "9a1e"; Ok "c04b"]
              [Ok "RUNNING"; Error (ClientError "ThrottlingException")]
              [header; cell "A"])
           ["RUNNING"]
           (Answers three_functions [Ok "9a1e"; Ok "c04b"]
              [Error (ClientError "ThrottlingException")] [header; cell "A"])).
  - reflexivity.
  - repeat (constructor; [split; discriminate |]). constructor.
  - repeat (eapply polls_cons; [reflexivity |]). constructor.
  - reflexivity.
  - simpl. lia.
Defined.

Lemma run_query_slept_witness :
  slept (run_query 3 "select 1" "us-east-1" "s3://staging"
           (initial slow_job_world)).2
  = 5 * (Z.of_nat (length ["RUNNING"; "RUNNING"])
         + (if decide ("SUCCEEDED" = "SUCCEEDED") then 1 else 0)).
Proof.
  apply (run_query_slept 3 "select 1" "us-east-1" "s3://staging"
           (initial slow_job_world) "D1e5"
           (Scripted ["A"] [] ["RUNNING"; "RUNNING"; "SUCCEEDED"] [header; cell "A"])
           ["RUNNING"; "RUNNING"] "SUCCEEDED"
           (Scripted ["A"] [] [] [header; cell "A"])).
  - reflexivity.
  - repeat (constructor; [split; discriminate |]). constructor.
  - by left.
  - repeat (eapply polls_cons; [reflexivity |]). constructor.
  - simpl. lia.
Defined.

Lemma run_query_fetches_last_witness :
  let '(o, _, t) :=
    run_query 3 "select 1" "us-east-1" "s3://staging" (initial slow_job_world) in
  let fetch_last :=
    ∃ before, t = before ++ [GetQueryResults "D1e5"] ∧ fetched before = [] in
  submitted t = ["select 1"]
  ∧ match o with
    | Return (Some _) => fetch_last
    | Return None | OutOfFuel => fetched t = []
    | Raise _ => fetched t = [] ∨ fetch_last
    end.
Proof.
  apply (run_query_fetches_last 3 "select 1" "us-east-1" "s3://staging"
           (initial slow_job_world) "D1e5"
           (Scripted ["A"] [] ["RUNNING"; "RUNNING"; "SUCCEEDED"]
              [header; cell "A"])).
  reflexivity.
Defined.

(** ** The whole run, whatever the services do *)

Section Main_more.
Context {W : Type} {services : Services W}.

Lemma used_loop_silent rows : ∀ (acc : gset string) (s : state W),
  (for_each rows acc
     (λ set_of_functions_used row,
        count ← get_used_count;
        set_used_count (count + 1);;
        cell ← of_option IndexError (head (Data row));
        function_arn ← of_option KeyError (VarCharValue cell);
        ret ({[function_arn]} ∪ set_of_functions_used)) s).2 = [].
Proof.
  induction rows as [|row rows IH]; intros acc s; simpl; [done |].
  rewrite bind_run.
  rewrite (bind_run get_used_count). unfold get_used_count at 1.
  destruct (used_count s) as [n|]; simpl; [| done].
  destruct (head (Data row)) as [c|]; simpl; [| done].
  do 2 (rewrite bind_run; simpl).
  destruct (VarCharValue c) as [arn|]; simpl; [| done].
  repeat (rewrite bind_run; simpl).
  specialize (IH ({[arn]} ∪ acc)
                (State (world s) (retrieve_count s) (Some (n + 1)))).
  destruct (for_each rows _ _ _) as [[[] s1] t1]; simpl in *; by subst.
Qed.

Lemma get_set_of_function_arns_from_result_set_silent result_set (s : state W) :
  (get_set_of_function_arns_from_result_set result_set s).2 = [].
Proof.
  unfold get_set_of_function_arns_from_result_set. rewrite bind_run. simpl.
  pose proof (used_loop_silent (tail result_set) ∅
                (State (world s) (retrieve_count s) (Some 0))) as Hsilent.
  destruct (for_each (tail result_set) _ _ _) as [[o s1] t1]. simpl in *.
  by subst.
Qed.

(** The reconciliation only prints. *)
Lemma main_reconcile_printed function_arns rs (s : state W) :
  Forall printed (main_reconcile function_arns rs s).2.
Proof.
  unfold main_reconcile. rewrite bind_run. simpl.
  destruct (last rs) as [[res|]|]; simpl; [| by repeat constructor ..].
  do 4 (rewrite bind_run; simpl).
  pose proof (get_set_of_function_arns_from_result_set_silent
                (Rows (ResultSet res)) s) as Hsilent.
  destruct (get_set_of_function_arns_from_result_set _ s) as [[[U| |] s1] t1];
    simpl in *; subst t1; [| by repeat constructor ..].
  destruct s1 as [w1 [n|] [m|]]; repeat (rewrite bind_run; simpl);
    try (by repeat constructor).
  rewrite print_loop. simpl.
  repeat (rewrite bind_run; simpl).
  repeat (apply Forall_cons_2; [exact I |]).
  apply Forall_app_2; [| by repeat constructor].
  apply Forall_fmap, Forall_true. intros a. exact I.
Qed.

Lemma printed_trace t :
  Forall printed t → submitted t = [].
Proof.
  intros Ht. unfold submitted.
  induction Ht as [|e t He Ht IH]; [done |]. by destruct e.
Qed.

Lemma run_query_submitted fuel query region bucket (s : state W) :
  submitted (run_query fuel query region bucket s).2 = [query].
Proof.
  destruct (start_query_execution query "default" (bucket +:+ "-" +:+ region)
              (world s)) as [[i|e] w0] eqn:Hstart.
  - rewrite (run_query_start _ _ _ _ _ _ _ Hstart).
    pose proof (run_query_poll_polling i fuel None
                  (State w0 (retrieve_count s) (used_count s))) as Hpoll.
    destruct (run_query_poll fuel None i _) as [[o s1] t]. simpl in Hpoll.
    apply polling_events_trace in Hpoll as [Hsub _].
    assert (∀ tail, submitted tail = [] →
              submitted
                ([StartQueryExecution query "default" (bucket +:+ "-" +:+ region);
                  Print (QueryExecutionIdLine i)] ++ t ++ tail) = [query])
      as Hsubmitted.
    { intros tail Htail. unfold submitted in *. simpl.
      by rewrite omap_app, Hsub, Htail. }
    destruct o as [[]| |]; simpl;
      [destruct (get_query_results i (world s1)) as [r w2]; simpl;
       by apply Hsubmitted | ..];
      rewrite <- (app_nil_r t); by apply Hsubmitted.
  - unfold run_query. by rewrite bind_run, (call_run _ _ _ _ _ Hstart).
Qed.

(** The statements are submitted in the order of the list, each once; all
    of them when the list comprehension completes. *)
Lemma run_queries_submitted fuel args queries : ∀ done (s : state W),
  submitted (run_queries fuel args queries done s).2 `prefix_of` queries
  ∧ (∀ rs, (run_queries fuel args queries done s).1.1 = Return rs →
           submitted (run_queries fuel args queries done s).2 = queries).
Proof.
  induction queries as [|q queries IH]; intros done s.
  - split; [by exists [] | done].
  - rewrite run_queries_cons.
    pose proof (run_query_submitted fuel q (region args)
                  (athena_s3_bucket_name args) s) as Hq.
    destruct (run_query fuel q _ _ s) as [[[r| |] s1] t1]; simpl in Hq.
    + specialize (IH (done ++ [r]) s1).
      destruct (run_queries fuel args queries _ s1) as [[o s2] t2].
      simpl in *. destruct IH as [[k Hk] Hall].
      unfold submitted in *. rewrite omap_app, Hq. simpl.
      split; [exists k; by rewrite Hk at 1 |].
      intros rs Hrs. by rewrite (Hall rs Hrs).
    + simpl. rewrite Hq. split; [by exists queries | done].
    + simpl. rewrite Hq. split; [by exists queries | done].
Qed.

End Main_more.

Lemma submitted_poll_events i sts : submitted (poll_events i sts) = [].
Proof. induction sts as [|st sts IH]; [done |]. exact IH. Qed.

Section Main_properties.
Context {W : Type} {services : Services W}.

Lemma get_set_of_function_arns_from_result_set_fails
    header_row good ids bad rest (s : state W) :
  mapM row_arn good = Some ids →
  row_arn bad = None →
  get_set_of_function_arns_from_result_set (header_row :: good ++ bad :: rest) s
  = (Raise (match Data bad with [] => IndexError | _ => KeyError end),
     State (world s) (retrieve_count s)
       (Some (Z.of_nat (length good) + 1)), []).
Proof.
  intros Hids Hbad. unfold get_set_of_function_arns_from_result_set.
  rewrite bind_run. simpl.
  rewrite (used_loop_raises good ids bad rest ∅ 0) by done. simpl.
  apply mapM_Some_1, Forall2_length in Hids. by rewrite Hids.
Qed.

(** X15: whatever the engine answers and however long the run lasts, [main]
    submits the statements in the order create-table, add-partition, usage
    query, each at most once: what it has submitted is always a prefix of
    that sequence, and the whole sequence once "Completed queries" is
    printed. *)
Theorem main_submits_in_order args fuel (s : state W) fns w1 :
  list_functions (world s) = (Ok {| Functions := fns |}, w1) →
  fns ≠ [] →
  ∃ q1 q2 q3,
    query_strings (map FunctionArn fns) (table_name args)
      (cloudtrail_s3_bucket_name args) (year args) (region args)
      = Some (q1, q2, q3)
    ∧ submitted (main args fuel s).2 `prefix_of` [q1; q2; q3]
    ∧ (Print CompletedQueries ∈ (main args fuel s).2 →
       submitted (main args fuel s).2 = [q1; q2; q3]).
Proof.
  intros Hlist Hfns.
  destruct (query_strings_some (map FunctionArn fns) (table_name args)
              (cloudtrail_s3_bucket_name args) (year args) (region args))
    as [[[q1 q2] q3] Hq].
  exists q1, q2, q3. split; [exact Hq |].
  rewrite (main_run _ _ _ _ _ _ _ _ Hlist Hfns Hq).
  set (s1 := State w1 (Some (Z.of_nat (length fns))) (used_count s)).
  destruct (run_queries_submitted fuel args [q1; q2; q3] [] s1) as [Hpre Hall].
  pose proof (run_queries_executor fuel args [q1; q2; q3] [] s1) as (Hev & _).
  destruct (run_queries fuel args [q1; q2; q3] [] s1) as [[[rs| |] s2] t2];
    simpl in Hpre, Hall, Hev.
  - pose proof (main_reconcile_printed (map FunctionArn fns) rs s2) as Hprinted.
    destruct (main_reconcile (map FunctionArn fns) rs s2) as [[o s3] t3].
    simpl in Hprinted. apply printed_trace in Hprinted.
    assert (submitted
              ([ListFunctions;
                Print (FoundFunctions (Z.of_nat (length fns)) (region args));
                Print (Rule (get_terminal_size w1).1); Print StartingQueries]
               ++ t2 ++ t3) = [q1; q2; q3]) as Hsub.
    { unfold submitted in *. simpl.
      by rewrite omap_app, (Hall rs eq_refl), Hprinted. }
    simpl. split; [| done]. change (submitted _) with (submitted
              ([ListFunctions;
                Print (FoundFunctions (Z.of_nat (length fns)) (region args));
                Print (Rule (get_terminal_size w1).1); Print StartingQueries]
               ++ t2 ++ t3)). rewrite Hsub. by exists [].
  - simpl. split; [exact Hpre |]. intros Hin.
    repeat (apply elem_of_cons in Hin as [Hin | Hin]; [discriminate |]).
    rewrite Forall_forall in Hev. by apply Hev in Hin.
  - simpl. split; [exact Hpre |]. intros Hin.
    repeat (apply elem_of_cons in Hin as [Hin | Hin]; [discriminate |]).
    rewrite Forall_forall in Hev. by apply Hev in Hin.
Qed.

(** X16: unlike a FAILED status, an exception of the engine at the
    submission of the create-table statement ends the run there: [main]
    raises it, and neither of the two other statements is submitted. *)
Theorem main_submission_refused args fuel (s : state W) fns w1 q1 q2 q3 e w2 :
  list_functions (world s) = (Ok {| Functions := fns |}, w1) →
  fns ≠ [] →
  query_strings (map FunctionArn fns) (table_name args)
    (cloudtrail_s3_bucket_name args) (year args) (region args)
    = Some (q1, q2, q3) →
  start_query_execution q1 "default"
    (athena_s3_bucket_name args +:+ "-" +:+ region args) w1 = (Error e, w2) →
  main args fuel s
  = (Raise e, State w2 (Some (Z.of_nat (length fns))) (used_count s),
     [ListFunctions;
      Print (FoundFunctions (Z.of_nat (length fns)) (region args));
      Print (Rule (fst (get_terminal_size w1)));
      Print StartingQueries;
      StartQueryExecution q1 "default"
        (athena_s3_bucket_name args +:+ "-" +:+ region args)]).
Proof.
  intros Hlist Hfns Hq Hstart.
  rewrite (main_run _ _ _ _ _ _ _ _ Hlist Hfns Hq), run_queries_cons.
  unfold run_query.
  by rewrite (bind_raise _ _ _ _ _ _
                (call_run _ _
                   (State w1 (Some (Z.of_nat (length fns))) (used_count s))
                   _ _ Hstart)).
Qed.

(** X17: a create-table job whose status stays pending blocks the run:
    however many times it has been polled, [main] has neither ended nor
    submitted the add-partition statement. *)
Theorem main_blocked_by_pending_job args (s : state W) fns w1 q1 q2 q3 i w2 sts w3 :
  list_functions (world s) = (Ok {| Functions := fns |}, w1) →
  fns ≠ [] →
  query_strings (map FunctionArn fns) (table_name args)
    (cloudtrail_s3_bucket_name args) (year args) (region args)
    = Some (q1, q2, q3) →
  start_query_execution q1 "default"
    (athena_s3_bucket_name args +:+ "-" +:+ region args) w1 = (Ok i, w2) →
  Forall pending sts →
  polls (lstrip "ID" i) w2 sts w3 →
  (main args (length sts) s).1.1 = OutOfFuel
  ∧ submitted (main args (length sts) s).2 = [q1]
  ∧ length (polled (main args (length sts) s).2) = length sts.
Proof.
  intros Hlist Hfns Hq Hstart Hpend Hpolls.
  assert (main args (length sts) s
          = (OutOfFuel,
             State w3 (Some (Z.of_nat (length fns))) (used_count s),
             [ListFunctions;
              Print (FoundFunctions (Z.of_nat (length fns)) (region args));
              Print (Rule (fst (get_terminal_size w1)));
              Print StartingQueries] ++
             [StartQueryExecution q1 "default"
                (athena_s3_bucket_name args +:+ "-" +:+ region args);
              Print (QueryExecutionIdLine i)] ++
             poll_events (lstrip "ID" i) sts)) as Hmain.
  { rewrite (main_run _ _ _ _ _ _ _ _ Hlist Hfns Hq), run_queries_cons.
    rewrite (run_query_start _ _ _ _
               (State w1 (Some (Z.of_nat (length fns))) (used_count s))
               _ _ Hstart).
    by rewrite (run_query_poll_pending i sts None _ w3). }
  rewrite Hmain. cbn [fst snd].
  destruct (polled_poll_events (lstrip "ID" i) sts) as [Hpolled _].
  pose proof (submitted_poll_events (lstrip "ID" i) sts) as Hsubmitted.
  unfold submitted, polled in *. rewrite !omap_app, Hpolled, Hsubmitted.
  split_and!; [done | done |]. simpl. apply length_replicate.
Qed.

End Main_properties.

Section Main_report.
Context {W : Type} {services : Services W}.

(** X18: whenever the usage query returns a result set with an identifier
    in column 0 of every row after the header, the reported unused list has
    no repetition, holds exactly the identifiers of the inventory that are
    in no row, and is in ascending order of the lowercased identifiers;
    this needs neither an inventory free of repetitions nor used
    identifiers that are all in the inventory, and the results of the first
    two statements (failed or not) play no part. *)
Theorem main_reports_difference
    args fuel (s : state W) fns w1 q1 q2 q3 rs s2 t2 res ids :
  list_functions (world s) = (Ok {| Functions := fns |}, w1) →
  fns ≠ [] →
  query_strings (map FunctionArn fns) (table_name args)
    (cloudtrail_s3_bucket_name args) (year args) (region args)
    = Some (q1, q2, q3) →
  run_queries fuel args [q1; q2; q3] []
    (State w1 (Some (Z.of_nat (length fns))) (used_count s))
    = (Return rs, s2, t2) →
  last rs = Some (Some res) →
  used_identifiers (Rows (ResultSet res)) = Some ids →
  ∃ s3 t,
    main args fuel s = (Return tt, s3, t)
    ∧ NoDup (reported_unused t)
    ∧ (∀ x, x ∈ reported_unused t ↔ x ∈ map FunctionArn fns ∧ x ∉ ids)
    ∧ StronglySorted lower_le (reported_unused t).
Proof.
  intros Hlist Hfns Hq Hrun Hlast Hids.
  destruct (main_report _ _ _ _ _ _ _ _ _ _ _ _ _
              Hlist Hfns Hq Hrun Hlast Hids) as (s3 & t & Hmain & Hl & _).
  exists s3, t. rewrite Hl.
  assert (sort_by_key lower
            (set_iteration (list_to_set (map FunctionArn fns) ∖ list_to_set ids))
          ≡ₚ elements
               (list_to_set (map FunctionArn fns) ∖ list_to_set ids : gset string))
    as Hperm by (rewrite sort_by_key_perm; apply set_iteration_perm).
  split_and!; [done | | | apply sort_by_key_sorted].
  - rewrite Hperm. apply NoDup_elements.
  - intros x. rewrite Hperm, elem_of_elements, elem_of_difference.
    by rewrite !elem_of_list_to_set.
Qed.

(** X19: the reported numbers are the two loop counters: the total is the
    number of entries of the inventory list, and the unused count is that
    number minus the number of rows after the header, whatever these rows
    hold (it is negative when the rows outnumber the entries). *)
Theorem main_reports_counters
    args fuel (s : state W) fns w1 q1 q2 q3 rs s2 t2 res header_row rows ids :
  list_functions (world s) = (Ok {| Functions := fns |}, w1) →
  fns ≠ [] →
  query_strings (map FunctionArn fns) (table_name args)
    (cloudtrail_s3_bucket_name args) (year args) (region args)
    = Some (q1, q2, q3) →
  run_queries fuel args [q1; q2; q3] []
    (State w1 (Some (Z.of_nat (length fns))) (used_count s))
    = (Return rs, s2, t2) →
  last rs = Some (Some res) →
  Rows (ResultSet res) = header_row :: rows →
  mapM row_arn rows = Some ids →
  ∃ s3 t,
    main args fuel s = (Return tt, s3, t)
    ∧ Print (UnusedSummary (Z.of_nat (length fns))
               (Z.of_nat (length fns) - Z.of_nat (length rows))) ∈ t
    ∧ reported_unused_count t
      = Some (Z.of_nat (length fns) - Z.of_nat (length rows)).
Proof.
  intros Hlist Hfns Hq Hrun Hlast Hrows Hids.
  assert (used_identifiers (Rows (ResultSet res)) = Some ids) as Hused
    by (unfold used_identifiers; by rewrite Hrows).
  destruct (main_report _ _ _ _ _ _ _ _ _ _ _ _ _
              Hlist Hfns Hq Hrun Hlast Hused) as (s3 & t & Hmain & _ & Hc).
  apply mapM_Some_1, Forall2_length in Hids. rewrite Hids.
  exists s3, t. split_and!; [done | | done].
  rewrite (main_run _ _ _ _ _ _ _ _ Hlist Hfns Hq), Hrun in Hmain.
  pose proof (run_queries_executor fuel args [q1; q2; q3] []
                (State w1 (Some (Z.of_nat (length fns))) (used_count s)))
    as (_ & Hr & _).
  rewrite Hrun in Hr. simpl in Hr.
  rewrite (main_reconcile_some _ _ _ _ _ _ Hlast Hused Hr) in Hmain.
  injection Hmain as _ <-.
  rewrite !elem_of_cons, elem_of_app, !elem_of_cons. tauto.
Qed.

(** X20: when a row after the header of the usage result has no identifier
    in column 0 (no cell, or a first cell that is a null), [main] ends with
    the exception of the extraction right after "Retrieved results", and
    reports nothing. *)
Theorem main_extraction_raises
    args fuel (s : state W) fns w1 q1 q2 q3 rs s2 t2 res
    header_row good ids bad rest :
  list_functions (world s) = (Ok {| Functions := fns |}, w1) →
  fns ≠ [] →
  query_strings (map FunctionArn fns) (table_name args)
    (cloudtrail_s3_bucket_name args) (year args) (region args)
    = Some (q1, q2, q3) →
  run_queries fuel args [q1; q2; q3] []
    (State w1 (Some (Z.of_nat (length fns))) (used_count s))
    = (Return rs, s2, t2) →
  last rs = Some (Some res) →
  Rows (ResultSet res) = header_row :: good ++ bad :: rest →
  mapM row_arn good = Some ids →
  row_arn bad = None →
  ∃ s3 t,
    main args fuel s
    = (Raise (match Data bad with [] => IndexError | _ => KeyError end), s3, t)
    ∧ t = [ListFunctions;
           Print (FoundFunctions (Z.of_nat (length fns)) (region args));
           Print (Rule (fst (get_terminal_size w1)));
           Print StartingQueries] ++ t2 ++
          [Print CompletedQueries; Print RetrievedResults]
    ∧ reported_unused t = []
    ∧ reported_unused_count t = None.
Proof.
  intros Hlist Hfns Hq Hrun Hlast Hrows Hids Hbad.
  rewrite (main_run _ _ _ _ _ _ _ _ Hlist Hfns Hq), Hrun.
  pose proof (run_queries_executor fuel args [q1; q2; q3] []
                (State w1 (Some (Z.of_nat (length fns))) (used_count s)))
    as (Ht2 & _ & _).
  rewrite Hrun in Ht2. simpl in Ht2.
  apply executor_events_report in Ht2 as [Hu2 Hs2].
  assert (main_reconcile (map FunctionArn fns) rs s2
          = (Raise (match Data bad with [] => IndexError | _ => KeyError end),
             State (world s2) (retrieve_count s2)
               (Some (Z.of_nat (length good) + 1)),
             [Print CompletedQueries; Print RetrievedResults])) as ->.
  { unfold main_reconcile. rewrite bind_run. simpl. rewrite Hlast. simpl.
    do 4 (rewrite bind_run; simpl). rewrite Hrows.
    by rewrite (get_set_of_function_arns_from_result_set_fails
                  header_row good ids bad rest s2 Hids Hbad). }
  eexists _, _. split_and!; [reflexivity | reflexivity | |].
  - unfold reported_unused in *. by rewrite !omap_app, Hu2.
  - unfold reported_unused_count, summaries in *. by rewrite !omap_app, Hs2.
Qed.

(** X21: when the listing of the functions is refused, [main] raises the
    exception of the service after that single request: nothing is printed,
    built or submitted. *)
Theorem main_inventory_refused args fuel (s : state W) e w1 :
  list_functions (world s) = (Error e, w1) →
  main args fuel s
  = (Raise e, State w1 (Some 0) (used_count s), [ListFunctions]).
Proof.
  intros Hlist. unfold main. apply bind_raise.
  unfold retrieve_function_arns. rewrite bind_run. simpl.
  by rewrite (bind_raise _ _ _ _ _ _
                (call_run ListFunctions list_functions
                   (State (world s) (Some 0) (used_count s)) _ _ Hlist)).
Qed.

End Main_report.

(** ** The order of the report *)

Lemma insert_by_key_filter {A} (key : A → string) (k : string) x l :
  filter (λ y, key y = k) (insert_by_key key x l)
  = filter (λ y, key y = k) (x :: l).
Proof.
  induction l as [|y l IH]; [done |]. simpl.
  destruct (String.leb (key x) (key y)) eqn:Hxy; [done |].
  rewrite !filter_cons in *.
  destruct (decide (key x = k)) as [Hx | Hx];
    destruct (decide (key y = k)) as [Hy | Hy]; try (by rewrite IH).
  exfalso. rewrite Hx, Hy in Hxy.
  assert (String.le k k) as Hrefl by reflexivity.
  unfold String.le in Hrefl. by rewrite Hxy in Hrefl.
Qed.

(** X22: the sort of the report is stable: it is a rearrangement of its
    argument in ascending order of the keys in which the items that have
    the same key (the identifiers that differ by case only, for the key of
    [main]) keep the order they had. *)
Theorem sort_by_key_stable {A} (key : A → string) (l : list A) :
  sort_by_key key l ≡ₚ l
  ∧ StronglySorted (key_le key) (sort_by_key key l)
  ∧ ∀ k, filter (λ y, key y = k) (sort_by_key key l)
         = filter (λ y, key y = k) l.
Proof.
  split_and!; [apply sort_by_key_perm | apply sort_by_key_sorted |].
  intros k. induction l as [|x l IH]; [done |]. simpl.
  rewrite insert_by_key_filter, !filter_cons, IH. done.
Qed.

(** ** The further statements on the scripted worlds *)

Lemma main_submits_in_order_witness :
  ∃ q1 q2 q3,
    query_strings (map FunctionArn (Build_FunctionConfiguration <$> ["A"; "B"; "C"]))
      (table_name sample_args) (cloudtrail_s3_bucket_name sample_args)
      (year sample_args) (region sample_args)
      = Some (q1, q2, q3)
    ∧ submitted (main sample_args 3 (initial scenario_world)).2
        `prefix_of` [q1; q2; q3]
    ∧ (Print CompletedQueries ∈ (main sample_args 3 (initial scenario_world)).2 →
       submitted (main sample_args 3 (initial scenario_world)).2 = [q1; q2; q3]).
Proof.
  apply (main_submits_in_order sample_args 3 (initial scenario_world)
           (Build_FunctionConfiguration <$> ["A"; "B"; "C"]) scenario_world);
    [reflexivity | discriminate].
Defined.

Lemma main_submission_refused_witness :
  (main sample_args 3 (initial refused_world)).1.1
  = Raise (ClientError "InvalidRequestException")
  ∧ length (submitted (main sample_args 3 (initial refused_world)).2) = 1%nat.
Proof.
  opose proof*
    (main_submission_refused sample_args 3 (initial refused_world)
       (Build_FunctionConfiguration <$> ["A"; "B"; "C"]) refused_world
       _ _ _ (ClientError "InvalidRequestException")
       (Answers three_functions [] [] [header; cell "A"])) as Hmain.
  - reflexivity.
  - discriminate.
  - vm_compute. reflexivity.
  - reflexivity.
  - rewrite Hmain. split; reflexivity.
Defined.

Lemma main_blocked_by_pending_job_witness :
  (main sample_args 3 (initial stuck_world)).1.1 = OutOfFuel
  ∧ length (submitted (main sample_args 3 (initial stuck_world)).2) = 1%nat
  ∧ length (polled (main sample_args 3 (initial stuck_world)).2) = 3%nat.
Proof.
  opose proof*
    (main_blocked_by_pending_job sample_args (initial stuck_world)
       (Build_FunctionConfiguration <$> ["A"; "B"; "C"]) stuck_world
       _ _ _ "7f3c"
       (Scripted ["A"; "B"; "C"] ["9a1e"; "c04b"] ["QUEUED"; "QUEUED"; "QUEUED"]
          [header; cell "A"])
       ["QUEUED"; "QUEUED"; "QUEUED"]
       (Scripted ["A"; "B"; "C"] ["9a1e"; "c04b"] [] [header; cell "A"]))
    as (Hout & Hsub & Hpolled).
  - reflexivity.
  - discriminate.
  - vm_compute. reflexivity.
  - reflexivity.
  - repeat (constructor; [split; discriminate |]). constructor.
  - repeat (eapply polls_cons; [reflexivity |]). constructor.
  - split_and!; [exact Hout | exact (f_equal length Hsub) | exact Hpolled].
Defined.

Lemma main_reports_difference_witness :
  ∃ s3 t,
    main sample_args 3 (initial scenario_world) = (Return tt, s3, t)
    ∧ NoDup (reported_unused t)
    ∧ (∀ x, x ∈ reported_unused t
            ↔ x ∈ map FunctionArn (Build_FunctionConfiguration <$> ["A"; "B"; "C"])
              ∧ x ∉ ["A"])
    ∧ StronglySorted lower_le (reported_unused t).
Proof.
  eapply (main_reports_difference sample_args 3 (initial scenario_world)
            (Build_FunctionConfiguration <$> ["A"; "B"; "C"]) scenario_world
            _ _ _ _ _ _
            {| ResultSet := {| Rows := [header; cell "A"] |} |} ["A"]).
  - reflexivity.
  - discriminate.
  - vm_compute. reflexivity.
  - vm_compute. reflexivity.
  - reflexivity.
  - reflexivity.
Defined.

Lemma main_reports_counters_witness :
  ∃ s3 t,
    main sample_args 3 (initial duplicate_world) = (Return tt, s3, t)
    ∧ Print (UnusedSummary
               (Z.of_nat (length (Build_FunctionConfiguration <$> ["A"; "A"])))
               (Z.of_nat (length (Build_FunctionConfiguration <$> ["A"; "A"]))
                - Z.of_nat (length (@nil Row)))) ∈ t
    ∧ reported_unused_count t
      = Some (Z.of_nat (length (Build_FunctionConfiguration <$> ["A"; "A"]))
              - Z.of_nat (length (@nil Row))).
Proof.
  eapply (main_reports_counters sample_args 3 (initial duplicate_world)
            (Build_FunctionConfiguration <$> ["A"; "A"]) duplicate_world
            _ _ _ _ _ _
            {| ResultSet := {| Rows := [header] |} |} header [] []).
  - reflexivity.
  - discriminate.
  - vm_compute. reflexivity.
  - vm_compute. reflexivity.
  - reflexivity.
  - reflexivity.
  - reflexivity.
Defined.

Lemma main_extraction_raises_witness :
  (main sample_args 3 (initial null_cell_world)).1.1 = Raise KeyError
  ∧ reported_unused (main sample_args 3 (initial null_cell_world)).2 = []
  ∧ reported_unused_count (main sample_args 3 (initial null_cell_world)).2 = None.
Proof.
  opose proof*
    (main_extraction_raises sample_args 3 (initial null_cell_world)
       (Build_FunctionConfiguration <$> ["A"; "B"; "C"]) null_cell_world
       _ _ _ _ _ _
       {| ResultSet :=
            {| Rows := [header; cell "A"; {| Data := [{| VarCharValue := None |}] |}] |} |}
       header [cell "A"] ["A"] {| Data := [{| VarCharValue := None |}] |} [])
    as (s3 & t & Hmain & _ & Hlist & Hcount).
  - reflexivity.
  - discriminate.
  - vm_compute. reflexivity.
  - vm_compute. reflexivity.
  - reflexivity.
  - reflexivity.
  - reflexivity.
  - reflexivity.
  - rewrite Hmain. by split_and!.
Defined.

Lemma main_inventory_refused_witness :
  main sample_args 3 (initial denied_world)
  = (Raise (ClientError "AccessDeniedException"),
     State denied_world (Some 0) None, [ListFunctions]).
Proof.
  apply (main_inventory_refused sample_args 3 (initial denied_world)
           (ClientError "AccessDeniedException") denied_world).
  reflexivity.
Defined.

(** ** The checks on the interpreter and on the AWS CLI *)

Lemma str_contains_append c a b :
  str_contains c (a +:+ b) = str_contains c a || str_contains c b.
Proof.
  induction a as [|d a IH]; [done |].
  change (String d a +:+ b) with (String d (a +:+ b)). simpl.
  by destruct (Ascii.eqb c d).
Qed.

Lemma split_nonempty sep s : split sep s ≠ [].
Proof.
  destruct s as [|c s]; simpl; [done |].
  destruct (Ascii.eqb c sep); [done |]. by destruct (split sep s).
Qed.

(** A text without the separator is a single piece. *)
Lemma split_none sep a : str_contains sep a = false → split sep a = [a].
Proof.
  induction a as [|c a IH]; [done |]. simpl.
  rewrite Ascii.eqb_sym.
  destruct (Ascii.eqb c sep); [done |]. intros Ha. by rewrite (IH Ha).
Qed.

(** The first piece ends at the first separator. *)
Lemma split_first sep a b :
  str_contains sep a = false →
  split sep (a +:+ String sep b) = a :: split sep b.
Proof.
  induction a as [|c a IH]; simpl.
  - intros _. change (EmptyString +:+ String sep b) with (String sep b).
    simpl. by rewrite Ascii.eqb_refl.
  - rewrite Ascii.eqb_sym.
    change (String c a +:+ String sep b) with (String c (a +:+ String sep b)).
    simpl. destruct (Ascii.eqb c sep); [done |]. intros Ha. by rewrite (IH Ha).
Qed.

Lemma digits_free sep s :
  is_digit sep = false → str_forallb is_digit s = true →
  str_contains sep s = false.
Proof.
  intros Hsep. induction s as [|c s IH]; [done |]. simpl.
  intros [Hc Hs]%andb_true_iff. rewrite (IH Hs).
  destruct (Ascii.eqb_spec sep c) as [-> |]; [congruence | done].
Qed.

Lemma int_body_digits s : ∀ acc digits n,
  str_forallb is_digit s = true →
  digits_value acc s = Some n →
  int_body (Z.of_nat acc) digits false s
  = Some (Z.of_nat n, (digits + String.length s)%nat).
Proof.
  induction s as [|c s IH]; intros acc digits n Hs Hn;
    cbn -[Nat.mul Nat.add Nat.sub Z.mul Z.add Z.sub Z.of_nat] in *.
  - injection Hn as <-. by rewrite Nat.add_0_r.
  - apply andb_true_iff in Hs as [Hc Hs]. rewrite Hc.
    unfold is_digit in Hc. rewrite Hc in Hn.
    apply andb_true_iff in Hc as [Hlo Hhi].
    apply N.leb_le in Hlo, Hhi.
    replace (10 * Z.of_nat acc + (Z.of_N (N_of_ascii c) - 48))
      with (Z.of_nat (10 * acc + (N.to_nat (N_of_ascii c) - 48))) by lia.
    rewrite (IH _ (S digits) n Hs Hn). do 2 f_equal. lia.
Qed.

(** [int] of a non-empty text of ASCII digits within the limit is its
    decimal value. *)
Lemma int_of_str_digits max_str_digits s n :
  s ≠ EmptyString →
  str_forallb is_digit s = true →
  digits_value 0 s = Some n →
  max_str_digits = 0%nat ∨ (String.length s ≤ max_str_digits)%nat →
  int_of_str max_str_digits s = Some (Z.of_nat n).
Proof.
  intros Hne Hs Hn Hmax. destruct s as [|c s]; [done |].
  assert (is_digit c = true) as Hc
    by (simpl in Hs; by apply andb_true_iff in Hs as [? _]).
  assert (int_space c = false ∧ c ≠ "+"%char ∧ c ≠ "-"%char) as (Hsp & Hplus & Hminus).
  { destruct c as [[] [] [] [] [] [] [] []]; try discriminate Hc; by split_and!. }
  unfold int_of_str. simpl skip_int_space. rewrite Hsp.
  assert (match String c s with
          | String "+" r => (1, r)
          | String "-" r => (-1, r)
          | _ => (1, String c s)
          end = (1, String c s)) as ->.
  { destruct c as [[] [] [] [] [] [] [] []]; try discriminate Hc; done. }
  rewrite Hc.
  pose proof (int_body_digits (String c s) 0 0 n Hs Hn) as Hbody.
  change (Z.of_nat 0) with 0 in Hbody. rewrite Hbody.
  replace (negb (max_str_digits =? 0)%nat
           && (max_str_digits <? 0 + String.length (String c s))%nat)
    with false; [f_equal; lia |].
  symmetry. destruct Hmax as [-> | Hle]; [done |].
  apply andb_false_iff. right. apply Nat.ltb_ge. simpl in *. lia.
Qed.

(** The first word of the output, up to its first space, is split at its
    first slash, and what follows up to the first dot is given to [int]. *)
Lemma main_checks_word
    max_str_digits version_info_major path name major minor rest :
  3 ≤ version_info_major →
  str_contains " " name = false →
  str_contains "/" name = false →
  str_contains " " major = false →
  str_contains "/" major = false →
  str_contains "." major = false →
  str_contains " " minor = false →
  str_contains "/" minor = false →
  rest = EmptyString ∨ (∃ tail, rest = String " " tail) →
  main_checks max_str_digits version_info_major (Some path)
    (inr ((name +:+ String "/" (major +:+ String "." minor)) +:+ rest))
  = match int_of_str max_str_digits major with
    | None => ([PythonOk; AwsCliInstalled], inl (IntValueError major))
    | Some n =>
        if n <? 2
        then ([PythonOk; AwsCliInstalled; AwsCliTooOld], inl MustUseAwsCli2)
        else ([PythonOk; AwsCliInstalled;
               AwsCliVersion (major +:+ String "." minor)], inr tt)
    end.
Proof.
  intros Hpy Hn1 Hn2 Hm1 Hm2 Hm3 Hr1 Hr2 Hrest.
  unfold main_checks.
  destruct (Z.ltb_spec version_info_major 3) as [| _]; [lia |].
  set (word := name +:+ String "/" (major +:+ String "." minor)).
  assert (str_contains " " word = false) as Hword.
  { unfold word.
    change (String "/" (major +:+ String "." minor))
      with (String "/" EmptyString +:+ (major +:+ (String "." EmptyString +:+ minor))).
    rewrite !str_contains_append, Hn1, Hm1, Hr1. reflexivity. }
  assert (nth_error (split " " (word +:+ rest)) 0 = Some word) as ->.
  { destruct Hrest as [-> | [tail ->]].
    - assert (word +:+ EmptyString = word) as ->.
      { clear. induction word as [|c w IH]; [done |].
        change (String c w +:+ EmptyString) with (String c (w +:+ EmptyString)).
        by rewrite IH. }
      by rewrite (split_none _ _ Hword).
    - by rewrite (split_first _ _ _ Hword). }
  unfold word. rewrite (split_first _ _ _ Hn2).
  assert (str_contains "/" (major +:+ String "." minor) = false) as Hversion.
  { change (String "." minor) with (String "." EmptyString +:+ minor).
    rewrite !str_contains_append, Hm2, Hr2. reflexivity. }
  rewrite (split_none _ _ Hversion).
  change (nth_error [name; major +:+ String "." minor] 1)
    with (Some (major +:+ String "." minor)).
  cbv beta iota. rewrite (split_first _ _ _ Hm3). reflexivity.
Qed.

(** X23: when the interpreter is recent enough and the AWS CLI is found,
    the version check reads the first word of the output of
    [aws --version], takes what stands between its first slash and the next
    dot and gives it to [int]: a [ValueError] of [int] ends the checks, a
    number below 2 is refused with the message of the program, and any other
    number is accepted, the whole version (up to the next space) being
    printed. *)
Theorem main_checks_first_word
    max_str_digits version_info_major path name major minor tail :
  3 ≤ version_info_major →
  str_contains " " name = false →
  str_contains "/" name = false →
  str_contains " " major = false →
  str_contains "/" major = false →
  str_contains "." major = false →
  str_contains " " minor = false →
  str_contains "/" minor = false →
  main_checks max_str_digits version_info_major (Some path)
    (inr ((name +:+ String "/" (major +:+ String "." minor)) +:+ String " " tail))
  = match int_of_str max_str_digits major with
    | None => ([PythonOk; AwsCliInstalled], inl (IntValueError major))
    | Some n =>
        if n <? 2
        then ([PythonOk; AwsCliInstalled; AwsCliTooOld], inl MustUseAwsCli2)
        else ([PythonOk; AwsCliInstalled;
               AwsCliVersion (major +:+ String "." minor)], inr tt)
    end.
Proof.
  intros. apply main_checks_word; try done. right. by eexists.
Qed.

Lemma main_checks_first_word_witness :
  main_checks 4300 3 (Some "/usr/local/bin/aws")
    (inr (("aws-cli" +:+ String "/" ("v2" +:+ String "." "15.30"))
          +:+ String " " "Python/3.11.8 Linux/5.15"))
  = match int_of_str 4300 "v2" with
    | None => ([PythonOk; AwsCliInstalled], inl (IntValueError "v2"))
    | Some n =>
        if n <? 2
        then ([PythonOk; AwsCliInstalled; AwsCliTooOld], inl MustUseAwsCli2)
        else ([PythonOk; AwsCliInstalled;
               AwsCliVersion ("v2" +:+ String "." "15.30")], inr tt)
    end.
Proof.
  apply (main_checks_first_word 4300 3 "/usr/local/bin/aws" "aws-cli" "v2"
           "15.30" "Python/3.11.8 Linux/5.15");
    first [lia | reflexivity].
Defined.

(** X24: for an output of the usual form, a name, a slash, a major version
    number in ASCII digits, a dot, the rest of the version and a space, the
    AWS CLI is accepted exactly when the major number is at least 2; it is
    refused with the message of the program otherwise, and the accepted
    version is printed whole. *)
Theorem main_checks_major_version
    max_str_digits version_info_major path name major n minor tail :
  3 ≤ version_info_major →
  str_contains " " name = false →
  str_contains "/" name = false →
  major ≠ EmptyString →
  str_forallb is_digit major = true →
  digits_value 0 major = Some n →
  max_str_digits = 0%nat ∨ (String.length major ≤ max_str_digits)%nat →
  str_contains " " minor = false →
  str_contains "/" minor = false →
  main_checks max_str_digits version_info_major (Some path)
    (inr ((name +:+ String "/" (major +:+ String "." minor)) +:+ String " " tail))
  = if (n <? 2)%nat
    then ([PythonOk; AwsCliInstalled; AwsCliTooOld], inl MustUseAwsCli2)
    else ([PythonOk; AwsCliInstalled;
           AwsCliVersion (major +:+ String "." minor)], inr tt).
Proof.
  intros Hpy Hn1 Hn2 Hne Hdigits Hvalue Hmax Hr1 Hr2.
  rewrite main_checks_word; try done;
    [| by apply digits_free .. | right; by eexists].
  rewrite (int_of_str_digits _ _ n Hne Hdigits Hvalue Hmax).
  destruct (Nat.ltb_spec n 2) as [Hlt | Hge];
    [rewrite (proj2 (Z.ltb_lt _ _)) by lia | rewrite (proj2 (Z.ltb_ge _ _)) by lia];
    reflexivity.
Qed.

Lemma main_checks_major_version_witness :
  main_checks 4300 3 (Some "/usr/local/bin/aws")
    (inr (("aws-cli" +:+ String "/" ("1" +:+ String "." "32.4"))
          +:+ String " " "Python/3.11.8 Linux/5.15"))
  = if (1 <? 2)%nat
    then ([PythonOk; AwsCliInstalled; AwsCliTooOld], inl MustUseAwsCli2)
    else ([PythonOk; AwsCliInstalled;
           AwsCliVersion ("1" +:+ String "." "32.4")], inr tt).
Proof.
  apply (main_checks_major_version 4300 3 "/usr/local/bin/aws" "aws-cli" "1" 1
           "32.4" "Python/3.11.8 Linux/5.15");
    first [lia | reflexivity | discriminate | (right; simpl; lia)].
Defined.

(** X25: when the first word of the output of [aws --version] has no slash,
    the version check ends with the [IndexError] of the subscript, not with
    a message of the program. *)
Theorem main_checks_no_slash max_str_digits version_info_major path word rest :
  3 ≤ version_info_major →
  str_contains " " word = false →
  str_contains "/" word = false →
  rest = EmptyString ∨ (∃ tail, rest = String " " tail) →
  main_checks max_str_digits version_info_major (Some path) (inr (word +:+ rest))
  = ([PythonOk; AwsCliInstalled], inl ListIndexError).
Proof.
  intros Hpy Hw1 Hw2 Hrest. unfold main_checks.
  destruct (Z.ltb_spec version_info_major 3) as [| _]; [lia |].
  assert (nth_error (split " " (word +:+ rest)) 0 = Some word) as ->.
  { destruct Hrest as [-> | [tail ->]].
    - assert (word +:+ EmptyString = word) as ->.
      { clear. induction word as [|c w IH]; [done |].
        change (String c w +:+ EmptyString) with (String c (w +:+ EmptyString)).
        by rewrite IH. }
      by rewrite (split_none _ _ Hw1).
    - by rewrite (split_first _ _ _ Hw1). }
  by rewrite (split_none _ _ Hw2).
Qed.

Lemma main_checks_no_slash_witness :
  main_checks 4300 3 (Some "/usr/local/bin/aws") (inr ("aws" +:+ String " " "2.15.30"))
  = ([PythonOk; AwsCliInstalled], inl ListIndexError).
Proof.
  apply (main_checks_no_slash 4300 3 "/usr/local/bin/aws" "aws" (String " " "2.15.30"));
    first [lia | reflexivity | (right; by eexists)].
Defined.
